(** * Caixa-Cubic-Finance: the Telegram document bot

    A shallow embedding of [telegram_document_bot.py]: the financial
    calculator ([money], [monthly_payment]), the signature-line drawables
    of the three PDF builders, and the conversation handlers together with
    the [ConversationHandler] that dispatches to them.

    Modelling conventions.
    - A Python [float] is a value of [pyfloat]: a rational number, an
      infinity or NaN.  Arithmetic on finite values is exact: the rounding
      error and the overflow of binary64 are abstracted, and so is the
      sign of zero (it only shows when a zero is printed).
    - A Python [str] is a [string] holding its UTF-8 bytes.
    - [context.user_data] is a [gmap string pyval].
    - A handler is a computation in the monad [M]: it threads the [world]
      (the user data and the log of what was sent or built) and either
      returns or raises.  A raised exception keeps the mutations made
      before it, as in Python.
    - The PDF backend and the transport are outside the program: whether
      a builder or a delivery raises is read from an [env], and what the
      drawing code reads from files and fonts from [Draw.assets].  A
      [reply_text] and an [ImageReader] are taken to succeed. *)

From Stdlib Require Import ZArith NArith QArith Qround Qabs Qpower Lia Lqa.
From Stdlib Require Import String Ascii List DecimalString DecimalN.
From stdpp Require Import gmap strings.
Import ListNotations.

(** ** Exceptions and results *)

Inductive exn : Type :=
| ValueError
| ZeroDivisionError
| KeyError (key : string)
| TypeError
| InvalidOperation
| BuildFailure
| SendFailure.

Inductive result (A : Type) : Type :=
| Ok (a : A)
| Raise (e : exn).
Arguments Ok {A} a.
Arguments Raise {A} e.

Definition rbind {A B} (r : result A) (f : A -> result B) : result B :=
  match r with
  | Ok a => f a
  | Raise e => Raise e
  end.

(** ** Numbers *)

Module Num.
Local Open Scope Q_scope.

(** A Python float. *)
Inductive pyfloat : Type :=
| Fin (q : Q)
| Inf (neg : bool)
| NaN.

Definition Qnegb (q : Q) : bool := (Qnum q <? 0)%Z.
Definition Qzerob (q : Q) : bool := (Qnum q =? 0)%Z.

Definition of_int (n : Z) : pyfloat := Fin (inject_Z n).

(** [x == 0] *)
Definition feq0 (x : pyfloat) : bool :=
  match x with
  | Fin q => Qzerob q
  | _ => false
  end.

(** [x + y] *)
Definition fadd (x y : pyfloat) : pyfloat :=
  match x, y with
  | NaN, _ | _, NaN => NaN
  | Fin a, Fin b => Fin (a + b)
  | Fin _, Inf s | Inf s, Fin _ => Inf s
  | Inf s, Inf t => if Bool.eqb s t then Inf s else NaN
  end.

Definition fopp (x : pyfloat) : pyfloat :=
  match x with
  | Fin a => Fin (- a)
  | Inf s => Inf (negb s)
  | NaN => NaN
  end.

(** [x - y] *)
Definition fsub (x y : pyfloat) : pyfloat := fadd x (fopp y).

(** [x * y] *)
Definition fmul (x y : pyfloat) : pyfloat :=
  match x, y with
  | NaN, _ | _, NaN => NaN
  | Fin a, Fin b => Fin (a * b)
  | Fin a, Inf s | Inf s, Fin a =>
      if Qzerob a then NaN else Inf (xorb s (Qnegb a))
  | Inf s, Inf t => Inf (xorb s t)
  end.

(** [x / y]: Python raises on a zero divisor before looking at [x]. *)
Definition fdiv (x y : pyfloat) : result pyfloat :=
  match y with
  | Fin b =>
      if Qzerob b then Raise ZeroDivisionError
      else Ok match x with
              | Fin a => Fin (a / b)
              | Inf s => Inf (xorb s (Qnegb b))
              | NaN => NaN
              end
  | Inf _ =>
      Ok match x with
         | Fin _ => Fin 0
         | _ => NaN
         end
  | NaN => Ok NaN
  end.

(** [x ** n] for an [int] exponent [n]. *)
Definition fpow (x : pyfloat) (n : Z) : result pyfloat :=
  if (n =? 0)%Z then Ok (Fin 1)
  else match x with
       | NaN => Ok NaN
       | Inf s =>
           if (0 <? n)%Z then Ok (Inf (s && Z.odd n)) else Ok (Fin 0)
       | Fin a =>
           if Qzerob a
           then (if (n <? 0)%Z then Raise ZeroDivisionError else Ok (Fin 0))
           else Ok (Fin (a ^ n))
       end.

(** Nearest integer, ties to the even one. *)
Definition round_half_even (q : Q) : Z :=
  let f := Qfloor q in
  match Qcompare (q - inject_Z f) (1 # 2) with
  | Lt => f
  | Gt => (f + 1)%Z
  | Eq => if Z.even f then f else (f + 1)%Z
  end.

(** Nearest integer, ties away from zero on a magnitude ([ROUND_HALF_UP]
    of the [decimal] module, which works on the absolute value). *)
Definition round_half_up (q : Q) : Z := Qfloor (q + (1 # 2)).

(** The built-in [round(x, 2)] on a finite value (the fraction is kept in
    lowest terms, so that equal values are equal terms). *)
Definition round2 (q : Q) : Q := Qred (round_half_even (q * 100) # 100).

(** The built-in [round(x, 2)]: infinities and NaN are returned as they
    are. *)
Definition py_round2 (x : pyfloat) : pyfloat :=
  match x with
  | Fin q => Fin (round2 q)
  | _ => x
  end.

End Num.
Export Num.

(** ** The calculator *)

Definition DEFAULT_TAN : pyfloat := Fin (393 # 50).   (* 7.86 *)
Definition DEFAULT_TAEG : pyfloat := Fin (83 # 10).   (* 8.30 *)

(** [monthly_payment(amount, months, annual_rate)] *)
Definition monthly_payment (amount : pyfloat) (months : Z) (annual_rate : pyfloat)
  : result pyfloat :=
  rbind (fdiv annual_rate (Fin 100)) (fun r100 =>
  rbind (fdiv r100 (Fin 12)) (fun r =>
  if feq0 r then
    rbind (fdiv amount (of_int months)) (fun p => Ok (py_round2 p))
  else
    rbind (fpow (fadd (of_int 1) r) months) (fun pw =>
    let num := fmul (fmul amount r) pw in
    rbind (fpow (fadd (of_int 1) r) months) (fun pw' =>
    let den := fsub pw' (of_int 1) in
    rbind (fdiv num den) (fun p => Ok (py_round2 p)))))).

(** ** Strings *)

Module Str.
Local Open Scope char_scope.

(** The white space of [str.strip]: the ASCII characters for which
    [str.isspace] holds.  (White space outside ASCII is not modelled.) *)
Definition is_space (c : ascii) : bool :=
  let n := N_of_ascii c in
  ((9 <=? n) && (n <=? 13) || (28 <=? n) && (n <=? 32))%N.

(** The white space [float] and [int] skip around a number in an ASCII
    string: space, tab, line feed, vertical tab, form feed, carriage
    return. *)
Definition is_number_space (c : ascii) : bool :=
  let n := N_of_ascii c in
  ((9 <=? n) && (n <=? 13) || (n =? 32))%N.

Fixpoint lstrip (space : ascii -> bool) (s : list ascii) : list ascii :=
  match s with
  | c :: s' => if space c then lstrip space s' else s
  | [] => []
  end.

Definition strip_chars (space : ascii -> bool) (s : list ascii) : list ascii :=
  rev (lstrip space (rev (lstrip space s))).

Fixpoint starts_with (p s : list ascii) : bool :=
  match p, s with
  | [], _ => true
  | a :: p', b :: s' => Ascii.eqb a b && starts_with p' s'
  | _ :: _, [] => false
  end.

(** [s.replace(old, new)] for a non-empty [old]: the occurrences are
    replaced from the left and do not overlap; [skip] counts the characters
    of the occurrence that is being dropped. *)
Fixpoint replace_from (old new : list ascii) (skip : nat) (s : list ascii)
  : list ascii :=
  match s with
  | [] => []
  | c :: s' =>
      match skip with
      | S k => replace_from old new k s'
      | O =>
          if starts_with old s
          then new ++ replace_from old new (Nat.pred (length old)) s'
          else c :: replace_from old new O s'
      end
  end.

Definition chars (s : string) : list ascii := list_ascii_of_string s.
Definition str (l : list ascii) : string := string_of_list_ascii l.

(** [s.strip()] *)
Definition strip (s : string) : string :=
  str (strip_chars is_space (chars s)).

(** [s.replace(old, new)] *)
Definition replace (old new s : string) : string :=
  str (replace_from (chars old) (chars new) O (chars s)).

Definition lower_char (c : ascii) : ascii :=
  let n := N_of_ascii c in
  if ((65 <=? n) && (n <=? 90))%N then ascii_of_N (n + 32) else c.

(** ** Number literals *)

Definition digit (c : ascii) : option (Decimal.uint -> Decimal.uint) :=
  match c with
  | "0" => Some Decimal.D0 | "1" => Some Decimal.D1 | "2" => Some Decimal.D2
  | "3" => Some Decimal.D3 | "4" => Some Decimal.D4 | "5" => Some Decimal.D5
  | "6" => Some Decimal.D6 | "7" => Some Decimal.D7 | "8" => Some Decimal.D8
  | "9" => Some Decimal.D9
  | _ => None
  end.

(** [digitpart ::= digit (["_"] digit)*]: the longest one at the head of
    [s], most significant digit first, and what follows it. *)
Fixpoint digitpart (s : list ascii) : option (Decimal.uint * list ascii) :=
  match s with
  | [] => None
  | c :: s' =>
      match digit c with
      | None => None
      | Some D =>
          let more :=
            match s' with
            | "_" :: s'' => digitpart s''
            | _ => digitpart s'
            end in
          match more with
          | Some (d, rest) => Some (D d, rest)
          | None => Some (D Decimal.Nil, s')
          end
      end
  end.

(** [sign ::= "+" | "-"], optional: is it a minus, and what follows. *)
Definition sign (s : list ascii) : bool * list ascii :=
  match s with
  | "-" :: s' => (true, s')
  | "+" :: s' => (false, s')
  | _ => (false, s)
  end.

(** [number ::= [digitpart] "." digitpart | digitpart ["."]]: the digits
    before and after the point. *)
Definition number (s : list ascii)
  : option (Decimal.uint * Decimal.uint * list ascii) :=
  match digitpart s with
  | Some (i, r) =>
      match r with
      | "." :: r' =>
          match digitpart r' with
          | Some (f, r'') => Some (i, f, r'')
          | None => Some (i, Decimal.Nil, r')
          end
      | _ => Some (i, Decimal.Nil, r)
      end
  | None =>
      match s with
      | "." :: r' =>
          match digitpart r' with
          | Some (f, r'') => Some (Decimal.Nil, f, r'')
          | None => None
          end
      | _ => None
      end
  end.

(** [exponent ::= ("e" | "E") [sign] digitpart], optional. *)
Definition exponent (s : list ascii) : option (Z * list ascii) :=
  match s with
  | c :: s' =>
      if Ascii.eqb (lower_char c) "e" then
        let '(neg, s'') := sign s' in
        match digitpart s'' with
        | Some (d, rest) =>
            let e := Z.of_N (N.of_uint d) in
            Some (if neg then (- e)%Z else e, rest)
        | None => None
        end
      else Some (0%Z, s)
  | [] => Some (0%Z, s)
  end.

(** The magnitude [i.f] times [10 ** e], in lowest terms. *)
Definition magnitude (i f : Decimal.uint) (e : Z) : Q :=
  Qred ((inject_Z (Z.of_N (N.of_uint i))
         + inject_Z (Z.of_N (N.of_uint f)) / 10 ^ Z.of_nat (Decimal.nb_digits f))
        * 10 ^ e)%Q.

(** What a numeric literal denotes: a signed magnitude, an infinity or
    NaN.  The sign is kept apart from the magnitude, as [Decimal] does. *)
Inductive literal : Type :=
| LFin (neg : bool) (mag : Q)
| LInf (neg : bool)
| LNaN.

(** [floatvalue ::= [sign] (floatnumber | "inf" | "infinity" | "nan")],
    the spelling of the words in any case, between optional white space:
    the grammar of [float(s)] (and, for the strings used here, of
    [Decimal(s)]) over ASCII digits. *)
Definition parse_literal (s : string) : option literal :=
  let '(neg, body) := sign (strip_chars is_number_space (chars s)) in
  let word := str (map lower_char body) in
  if String.eqb word "inf" || String.eqb word "infinity" then Some (LInf neg)
  else if String.eqb word "nan" then Some LNaN
  else
    match number body with
    | Some (i, f, r) =>
        match exponent r with
        | Some (e, []) => Some (LFin neg (magnitude i f e))
        | _ => None
        end
    | None => None
    end.

Definition float_of_literal (l : literal) : pyfloat :=
  match l with
  | LFin neg mag => Fin (if neg then (- mag)%Q else mag)
  | LInf neg => Inf neg
  | LNaN => NaN
  end.

(** [float(s)].  (The literal is not rounded to binary64, and digits
    outside ASCII are not modelled.) *)
Definition py_float (s : string) : result pyfloat :=
  match parse_literal s with
  | Some l => Ok (float_of_literal l)
  | None => Raise ValueError
  end.

(** [int(s)]: an optional sign and a [digitpart], between optional white
    space.  (Digits outside ASCII and the limit on the number of digits
    are not modelled.) *)
Definition py_int (s : string) : result Z :=
  let '(neg, body) := sign (strip_chars is_number_space (chars s)) in
  match digitpart body with
  | Some (d, []) =>
      let n := Z.of_N (N.of_uint d) in
      Ok (if neg then (- n)%Z else n)
  | _ => Raise ValueError
  end.

End Str.
Export Str.

(** ** Currency display *)

(** [Decimal(val)] of a float: its exact value. *)
Definition Decimal_of_float (x : pyfloat) : literal :=
  match x with
  | Fin q => LFin (Qnegb q) (Qabs q)
  | Inf neg => LInf neg
  | NaN => LNaN
  end.

(** The coefficient, in hundredths, of a magnitude quantized to
    [Decimal('0.01')] with [ROUND_HALF_UP]. *)
Definition quantize_cents (mag : Q) : N := Z.to_N (round_half_up (mag * 100)).

(** The default context of [decimal] has 28 digits of precision:
    [quantize] raises when the coefficient needs more. *)
Definition max_coefficient : N := 10 ^ 28.

Definition digit_of (k : N) : Decimal.uint -> Decimal.uint :=
  match k with
  | 0 => Decimal.D0 | 1 => Decimal.D1 | 2 => Decimal.D2 | 3 => Decimal.D3
  | 4 => Decimal.D4 | 5 => Decimal.D5 | 6 => Decimal.D6 | 7 => Decimal.D7
  | 8 => Decimal.D8 | _ => Decimal.D9
  end%N.

Definition two_digits (k : N) : Decimal.uint :=
  digit_of (k / 10) (digit_of (k mod 10) Decimal.Nil).

(** [str] of a [Decimal] with exponent -2 and coefficient [n]. *)
Definition cents_to_string (neg : bool) (n : N) : string :=
  ((if neg then "-" else "")
   ++ NilEmpty.string_of_uint (N.to_uint (n / 100))
   ++ "."
   ++ NilEmpty.string_of_uint (two_digits (n mod 100)))%string.

(** [str(d.quantize(Decimal('0.01'), rounding=ROUND_HALF_UP))] *)
Definition quantize_to_string (d : literal) : result string :=
  match d with
  | LFin neg mag =>
      let n := quantize_cents mag in
      if (n <? max_coefficient)%N then Ok (cents_to_string neg n)
      else Raise InvalidOperation
  | LInf _ => Raise InvalidOperation
  | LNaN => Ok "NaN"%string
  end.

(** [money] once [Decimal(val)] is built. *)
Definition money_of_decimal (d : literal) : result string :=
  rbind (quantize_to_string d) (fun s => Ok ("€ " ++ s)%string).

(** [money(val)] *)
Definition money (val : pyfloat) : result string :=
  money_of_decimal (Decimal_of_float val).

(** ** Signature lines *)

Module Draw.
Local Open Scope Q_scope.

(** [reportlab.lib.units.cm] is [72 / 2.54] points; an A4 page is 210 mm
    wide. *)
Definition cm : Q := 7200 # 254.
Definition A4_width : Q := 210 * (cm / 10).

Definition SIGNATURE_PATH : string := "image2.png".
Definition SMALL_LOGO_PATH : string := "image3.png".

(** What a flowable asks of its canvas. *)
Inductive canvas_op : Type :=
| SaveState
| SetFont (fontname : string) (fontsize : Q)
| DrawString (x y : Q) (s : string)
| SetLineWidth (w : Q)
| Line (x0 y0 x1 y1 : Q)
| DrawImage (path : string) (x y w h : Q)
| RestoreState.

(** What drawing reads from outside the program: the files that exist,
    the font metrics and the pixel size of an image. *)
Record assets : Type := {
  path_exists : string -> bool;
  stringWidth : string -> string -> Q -> Q;
  getSize : string -> Z * Z
}.

(** The fields of a [SignatureLine]; the ones that default to [None] are
    options. *)
Record SignatureLine : Type := {
  label : string;
  width : Q;
  sign_path : option string;
  sign_width : option Q;
  sign_height : option Q;
  left_icon_path : option string;
  left_icon_width : option Q;
  left_icon_height : option Q;
  fontname : string;
  fontsize : Q
}.

(** Truth value of an optional path: [None] and the empty string are
    false. *)
Definition given (p : option string) : option string :=
  match p with
  | Some EmptyString => None
  | _ => p
  end.

(** Arithmetic on a field left to [None] is a [TypeError]. *)
Definition number_of (x : option Q) : result Q :=
  match x with
  | Some q => Ok q
  | None => Raise TypeError
  end.

(** The corner icon of the contract's signature line (the body of its
    [try]); the caller swallows what it raises. *)
Definition draw_icon (A : assets) (icon : string) (final_h line_x1 y : Q)
  : list canvas_op :=
  let right_margin := (1 # 2) * cm in
  let vertical_offset := (45 # 100) * cm in
  let '(iw, ih) := getSize A icon in
  let aspect := if (ih =? 0)%Z then 1 else inject_Z iw / inject_Z ih in
  let final_w := final_h * aspect in
  let icon_x := line_x1 - right_margin - final_w in
  let icon_y := y - final_h / 2 + vertical_offset in
  [DrawImage icon icon_x icon_y final_w final_h].

(** [SignatureLine.draw] of [build_contratto]. *)
Definition draw_contratto (A : assets) (self : SignatureLine)
  : result (list canvas_op) :=
  let text_width := stringWidth A (label self) (fontname self) (fontsize self) in
  let y := 0 in
  let line_x0 := text_width + 6 in
  let line_x1 := width self in
  let head :=
    [SaveState; SetFont (fontname self) (fontsize self);
     DrawString 0 y (label self); SetLineWidth 1; Line line_x0 y line_x1 y] in
  match given (sign_path self) with
  | Some path =>
      if path_exists A path then
        let line_len := line_x1 - line_x0 in
        rbind (number_of (sign_width self)) (fun sw =>
        let img_x := line_x0 + (line_len - sw) / 2 in
        rbind (number_of (sign_height self)) (fun sh =>
        let img_y := y - sh / 2 in
        let image := [DrawImage path img_x img_y sw sh] in
        let icon :=
          match given (left_icon_path self), left_icon_height self with
          | Some ipath, Some ih =>
              if path_exists A ipath && negb (Qzerob ih)
              then draw_icon A ipath ih line_x1 y
              else []
          | _, _ => []
          end in
        Ok (head ++ image ++ icon ++ [RestoreState])))
      else Ok (head ++ [RestoreState])
  | None => Ok (head ++ [RestoreState])
  end.

(** [SignatureLine.draw] of [build_lettera_garanzia] and of
    [build_lettera_carta] (the two classes have the same body). *)
Definition draw_lettera (A : assets) (self : SignatureLine)
  : result (list canvas_op) :=
  let y := 0 in
  let head :=
    [SaveState; SetFont (fontname self) (fontsize self);
     DrawString 0 y (label self)] in
  match given (sign_path self) with
  | Some path =>
      if path_exists A path then
        rbind (number_of (sign_width self)) (fun sw =>
        let img_x := width self - sw in
        rbind (number_of (sign_height self)) (fun sh =>
        let img_y := y - sh / 2 in
        Ok (head ++ [DrawImage path img_x img_y sw sh] ++ [RestoreState])))
      else Ok (head ++ [RestoreState])
  | None => Ok (head ++ [RestoreState])
  end.

(** The width every builder gives its signature lines. *)
Definition line_width : Q := A4_width - 2 * cm * 2.

(** The signature lines as the builders instantiate them. *)
Definition contratto_bank_line : SignatureLine := {|
  label := "Assinatura do representante da Caixa  ";
  width := line_width;
  sign_path := Some SIGNATURE_PATH;
  sign_width := Some (4 * cm);
  sign_height := Some ((3 # 2) * cm);
  left_icon_path := Some SMALL_LOGO_PATH;
  left_icon_width := Some ((14 # 10) * cm);
  left_icon_height := Some ((14 # 10) * cm);
  fontname := "Helvetica";
  fontsize := 11
|}.

Definition contratto_client_line : SignatureLine := {|
  label := "Assinatura do Cliente ";
  width := line_width;
  sign_path := None;
  sign_width := None;
  sign_height := None;
  left_icon_path := None;
  left_icon_width := None;
  left_icon_height := None;
  fontname := "Helvetica";
  fontsize := 11
|}.

Definition garanzia_line : SignatureLine := {|
  label := "Responsável do Departamento de Crédito a Clientes Privados";
  width := line_width;
  sign_path := Some SIGNATURE_PATH;
  sign_width := Some (4 * cm);
  sign_height := Some (2 * cm);
  left_icon_path := None;
  left_icon_width := None;
  left_icon_height := None;
  fontname := "Helvetica";
  fontsize := 9
|}.

Definition carta_line : SignatureLine := {|
  label := "Responsabile Ufficio Crediti Clientela Privata";
  width := line_width;
  sign_path := Some SIGNATURE_PATH;
  sign_width := Some (4 * cm);
  sign_height := Some (2 * cm);
  left_icon_path := None;
  left_icon_width := None;
  left_icon_height := None;
  fontname := "Helvetica";
  fontsize := 9
|}.

(** In the words of the specification: the horizontal centre of a drawn
    image, and the centre of the rule segment from
    [labelTextWidth + fixedGap] to the element's total width. *)
Definition image_centre (x w : Q) : Q := x + w / 2.
Definition rule_centre (A : assets) (self : SignatureLine) : Q :=
  let ruleStart := stringWidth A (label self) (fontname self) (fontsize self) + 6 in
  let ruleEnd := width self in
  (ruleStart + ruleEnd) / 2.

End Draw.

(** ** The conversation *)

(** The values the handlers keep in [context.user_data]. *)
Inductive pyval : Type :=
| VStr (s : string)
| VFloat (x : pyfloat)
| VInt (n : Z).

(** The states of the conversation, [range(6)] in the source. *)
Inductive state : Type :=
| CHOOSING_DOC | ASK_NAME | ASK_AMOUNT | ASK_DURATION | ASK_TAN | ASK_TAEG.

(** What a handler returns: the next state or [ConversationHandler.END]. *)
Inductive next : Type :=
| To (s : state)
| END.

(** A call of one of the three PDF builders, with its argument. *)
Inductive build_call : Type :=
| Contratto (data : gmap string pyval)
| Garanzia (name : string)
| Carta (data : gmap string pyval).

Inductive markup : Type :=
| NoMarkup
| ReplyKeyboardMarkup (keyboard : list (list string))
| ReplyKeyboardRemove.

(** What the bot did, oldest first: the replies, the builder calls and
    the documents handed to the transport.  ([print] is not recorded.) *)
Inductive event : Type :=
| ReplyText (msg : string) (reply_markup : markup)
| Build (call : build_call)
| ReplyDocument (document : build_call) (filename : string).

Record world : Type := {
  user_data : gmap string pyval;
  log : list event
}.

(** What is outside the program: which builder calls raise (the layout
    backend), which deliveries raise (the transport), and the name the bot
    is registered under. *)
Record env : Type := {
  build_raises : build_call -> bool;
  send_raises : build_call -> string -> bool;
  bot_username : string
}.

(** An incoming message: its text and, when its first entity is a bot
    command at offset 0, the length of that entity (commands are ASCII, so
    the length counts characters of [text]). *)
Record update : Type := {
  text : string;
  command_entity : option nat
}.

(** *** The handler monad *)

Definition M (A : Type) : Type := world -> world * result A.

Definition ret {A} (a : A) : M A := fun w => (w, Ok a).

Definition raise {A} (e : exn) : M A := fun w => (w, Raise e).

Definition bind {A B} (m : M A) (f : A -> M B) : M B :=
  fun w =>
    match m w with
    | (w', Ok a) => f a w'
    | (w', Raise e) => (w', Raise e)
    end.

(** [try: m  except Exception: ...]: the outcome of [m] as a value. *)
Definition try {A} (m : M A) : M (result A) :=
  fun w => let '(w', r) := m w in (w', Ok r).

Definition lift {A} (r : result A) : M A := fun w => (w, r).

Notation "x <-- m ;; k" := (bind m (fun x => k))
  (at level 100, m at next level, right associativity).
Notation "m ;;; k" := (bind m (fun _ => k))
  (at level 100, right associativity).

(** [context.user_data[key]] *)
Definition get_item (key : string) : M pyval :=
  fun w =>
    match user_data w !! key with
    | Some v => (w, Ok v)
    | None => (w, Raise (KeyError key))
    end.

(** [context.user_data[key] = v] *)
Definition set_item (key : string) (v : pyval) : M unit :=
  fun w => ({| user_data := <[key := v]> (user_data w); log := log w |}, Ok tt).

(** [context.user_data.clear()] *)
Definition clear : M unit :=
  fun w => ({| user_data := ∅; log := log w |}, Ok tt).

Definition emit (e : event) : M unit :=
  fun w => ({| user_data := user_data w; log := log w ++ [e] |}, Ok tt).

(** [update.message.reply_text(msg, reply_markup=...)] *)
Definition reply_text (msg : string) (mk : markup) : M unit :=
  emit (ReplyText msg mk).

(** A builder call: the PDF it returns stands for itself. *)
Definition build (E : env) (call : build_call) : M build_call :=
  emit (Build call) ;;;
  if build_raises E call then raise BuildFailure else ret call.

(** [update.message.reply_document(InputFile(buf, filename))] *)
Definition reply_document (E : env) (buf : build_call) (filename : string)
  : M unit :=
  emit (ReplyDocument buf filename) ;;;
  if send_raises E buf filename then raise SendFailure else ret tt.

(** The operands the calculator is given by [ask_taeg]: the handlers store
    the amount and the rate as floats and the duration as an int (an int
    is as good as a float in the arithmetic; other values are a
    [TypeError]). *)
Definition float_of (v : pyval) : result pyfloat :=
  match v with
  | VFloat x => Ok x
  | VInt n => Ok (of_int n)
  | VStr _ => Raise TypeError
  end.

Definition int_of (v : pyval) : result Z :=
  match v with
  | VInt n => Ok n
  | _ => Raise TypeError
  end.

(** [f"{v}"] of the name kept in the user data, which the handlers store
    as a string (the formatting of other values is not modelled). *)
Definition str_of (v : pyval) : result string :=
  match v with
  | VStr s => Ok s
  | _ => Raise TypeError
  end.

Definition is_str (s : string) (v : pyval) : bool :=
  match v with
  | VStr s' => String.eqb s' s
  | _ => false
  end.

(** *** Handlers *)

Definition build_error_text : string :=
  "Ошибка при формировании PDF. Сообщите администратору.".
Definition send_error_text : string :=
  "Ошибка при отправке PDF. Сообщите администратору.".

Definition start : M next :=
  clear ;;;
  reply_text "Benvenuto! Scegli documento:"
    (ReplyKeyboardMarkup [["/contratto"; "/garanzia"; "/carta"]]) ;;;
  ret (To CHOOSING_DOC).

(** The reply of [start], as it shows in the log. *)
Definition welcome : event :=
  ReplyText "Benvenuto! Scegli documento:"
    (ReplyKeyboardMarkup [["/contratto"; "/garanzia"; "/carta"]]).

Definition choose_doc (u : update) : M next :=
  set_item "doc_type" (VStr (text u)) ;;;
  reply_text "Inserisci nome e cognome del cliente:" ReplyKeyboardRemove ;;;
  ret (To ASK_NAME).

Definition ask_name (E : env) (u : update) : M next :=
  let name := strip (text u) in
  dt <-- get_item "doc_type" ;;
  if is_str "/garanzia" dt then
    built <-- try (build E (Garanzia name)) ;;
    match built with
    | Raise _ => reply_text build_error_text NoMarkup ;;; ret END
    | Ok buf =>
        sent <-- try (reply_document E buf ("Garanzia_" +:+ name +:+ ".pdf")) ;;
        match sent with
        | Raise _ => reply_text send_error_text NoMarkup ;;; ret END
        | Ok _ => start
        end
    end
  else
    set_item "name" (VStr name) ;;;
    reply_text "Inserisci importo (€):" NoMarkup ;;;
    ret (To ASK_AMOUNT).

Definition ask_amount (u : update) : M next :=
  parsed <-- try (lift (py_float (replace "," "." (replace "€" "" (text u))))) ;;
  match parsed with
  | Raise _ =>
      reply_text "Importo non valido, riprova:" NoMarkup ;;; ret (To ASK_AMOUNT)
  | Ok amt =>
      set_item "amount" (VFloat (py_round2 amt)) ;;;
      reply_text "Inserisci durata (mesi):" NoMarkup ;;;
      ret (To ASK_DURATION)
  end.

Definition ask_duration (u : update) : M next :=
  parsed <-- try (lift (py_int (text u))) ;;
  match parsed with
  | Raise _ =>
      reply_text "Durata non valida, riprova:" NoMarkup ;;; ret (To ASK_DURATION)
  | Ok mn =>
      set_item "duration" (VInt mn) ;;;
      reply_text "Inserisci TAN (%), enter per 7.86%:" NoMarkup ;;;
      ret (To ASK_TAN)
  end.

(** [float(txt.replace(',','.')) if txt else default] *)
Definition rate_of (txt : string) (default : pyfloat) : M pyfloat :=
  match txt with
  | EmptyString => ret default
  | _ => lift (py_float (replace "," "." txt))
  end.

Definition ask_tan (u : update) : M next :=
  let txt := strip (text u) in
  tan <-- rate_of txt DEFAULT_TAN ;;
  set_item "tan" (VFloat tan) ;;;
  reply_text "Inserisci TAEG (%), enter per 8.3%:" NoMarkup ;;;
  ret (To ASK_TAEG).

(** The body of the first [try] of [ask_taeg]: the builder call and the
    file name, for the user data [d]. *)
Definition build_document (E : env) (dt : pyval) : M (build_call * string) :=
  if is_str "/contratto" dt then
    d <-- (fun w => (w, Ok (user_data w))) ;;
    buf <-- build E (Contratto d) ;;
    name <-- (v <-- get_item "name" ;; lift (str_of v)) ;;
    ret (buf, "Contratto_" +:+ name +:+ ".pdf")
  else
    d <-- (fun w => (w, Ok (user_data w))) ;;
    buf <-- build E (Carta d) ;;
    name <-- (v <-- get_item "name" ;; lift (str_of v)) ;;
    ret (buf, "Carta_" +:+ name +:+ ".pdf").

Definition ask_taeg (E : env) (u : update) : M next :=
  let txt := strip (text u) in
  taeg <-- rate_of txt DEFAULT_TAEG ;;
  set_item "taeg" (VFloat taeg) ;;;
  amount <-- (v <-- get_item "amount" ;; lift (float_of v)) ;;
  duration <-- (v <-- get_item "duration" ;; lift (int_of v)) ;;
  tan <-- (v <-- get_item "tan" ;; lift (float_of v)) ;;
  payment <-- lift (monthly_payment amount duration tan) ;;
  set_item "payment" (VFloat payment) ;;;
  dt <-- get_item "doc_type" ;;
  built <-- try (build_document E dt) ;;
  match built with
  | Raise _ => reply_text build_error_text NoMarkup ;;; ret END
  | Ok (buf, filename) =>
      sent <-- try (reply_document E buf filename) ;;
      match sent with
      | Raise _ => reply_text send_error_text NoMarkup ;;; ret END
      | Ok _ => start
      end
  end.

Definition cancel : M next :=
  reply_text "Operazione annullata." NoMarkup ;;;
  start.

(** *** The conversation handler *)

Definition lower (s : string) : string := str (map lower_char (chars s)).

Definition newline : string := String "010"%char "".

(** [filters.Regex('^(\/contratto|\/garanzia|\/carta)$')]: a search with
    [re.search], where [$] also matches before a final newline. *)
Definition menu_filter (u : update) : bool :=
  existsb (fun word => String.eqb (text u) word
                       || String.eqb (text u) (word +:+ newline))
          ["/contratto"; "/garanzia"; "/carta"].

(** [filters.TEXT & ~filters.COMMAND] *)
Definition text_filter (u : update) : bool :=
  negb (String.eqb (text u) "")
  && match command_entity u with
     | None => true
     | Some _ => false
     end.

(** The head of [s.split("@")] and, if there is an ["@"], what follows
    it. *)
Fixpoint until_at (s : list ascii) : list ascii * option (list ascii) :=
  match s with
  | [] => ([], None)
  | c :: s' =>
      if Ascii.eqb c "@" then ([], Some s')
      else let '(word, rest) := until_at s' in (c :: word, rest)
  end.

(** The parts of a bot command of [len] characters at the head of [t]:
    the word of [t[1:len]] before any ["@"], and what follows the ["@"]. *)
Definition command_parts (len : nat) (t : string)
  : list ascii * option (list ascii) :=
  until_at (firstn (len - 1) (skipn 1 (chars t))).

(** [CommandHandler(name, ...)]: the message starts with a bot command
    whose word is [name] in any case and which is addressed to no bot or
    to this one. *)
Definition command_filter (E : env) (name : string) (u : update) : bool :=
  match command_entity u with
  | None => false
  | Some len =>
      let '(word, rest) := command_parts len (text u) in
      let addressee :=
        match rest with
        | None => chars (bot_username E)
        | Some r => fst (until_at r)
        end in
      String.eqb (str (map lower_char word)) name
      && String.eqb (str (map lower_char addressee)) (lower (bot_username E))
  end.

(** The handler of a state ([states] of the [ConversationHandler]). *)
Definition state_filter (s : state) (u : update) : bool :=
  match s with
  | CHOOSING_DOC => menu_filter u
  | _ => text_filter u
  end.

Definition state_handler (E : env) (s : state) (u : update) : M next :=
  match s with
  | CHOOSING_DOC => choose_doc u
  | ASK_NAME => ask_name E u
  | ASK_AMOUNT => ask_amount u
  | ASK_DURATION => ask_duration u
  | ASK_TAN => ask_tan u
  | ASK_TAEG => ask_taeg E u
  end.

(** The handler an update is given to, if any.  Without a conversation
    ([None]) only the entry point is tried; within one, the handler of the
    state and then the fallbacks, in their order. *)
Definition check_update (E : env) (conv : option state) (u : update)
  : option (M next) :=
  match conv with
  | None =>
      if command_filter E "start" u then Some start else None
  | Some s =>
      if state_filter s u then Some (state_handler E s u)
      else if command_filter E "cancel" u then Some cancel
      else if command_filter E "start" u then Some start
      else None
  end.

(** One update: the state of the conversation after it and the world.
    [END] ends the conversation; a handler that raises leaves the state
    as it was. *)
Definition handle_update (E : env) (conv : option state) (w : world) (u : update)
  : option state * world :=
  match check_update E conv u with
  | None => (conv, w)
  | Some handler =>
      match handler w with
      | (w', Ok (To s)) => (Some s, w')
      | (w', Ok END) => (None, w')
      | (w', Raise _) => (conv, w')
      end
  end.

Fixpoint run (E : env) (conv : option state) (w : world) (us : list update)
  : option state * world :=
  match us with
  | [] => (conv, w)
  | u :: us' => let '(conv', w') := handle_update E conv w u in run E conv' w' us'
  end.

(** A plain text message, and a message that is one command. *)
Definition message (t : string) : update :=
  {| text := t; command_entity := None |}.
Definition command (t : string) : update :=
  {| text := t; command_entity := Some (String.length t) |}.

Definition empty_world : world := {| user_data := ∅; log := [] |}.

(** The builder calls of a log. *)
Definition builds (l : list event) : list build_call :=
  omap (fun e => match e with Build c => Some c | _ => None end) l.

(** The prompts of the amount, duration and rate steps. *)
Definition collection_prompts : list string :=
  ["Inserisci importo (€):"; "Inserisci durata (mesi):";
   "Inserisci TAN (%), enter per 7.86%:"; "Inserisci TAEG (%), enter per 8.3%:"].

(** The payment a builder is given. *)
Definition payment_of (call : build_call) : option pyval :=
  match call with
  | Contratto d | Carta d => d !! "payment"
  | Garanzia _ => None
  end.

(** Assets for the examples: every file exists, every label is 250 points
    wide and every image is square. *)
Definition sample_assets : Draw.assets :=
  {| Draw.path_exists := fun _ => true;
     Draw.stringWidth := fun _ _ _ => 250%Q;
     Draw.getSize := fun _ => (100%Z, 100%Z) |}.

(** A session in which everything but the TAEG has been collected. *)
Definition session : world :=
  {| user_data := {[ "doc_type" := VStr "/contratto"; "name" := VStr "Mario Rossi";
                     "amount" := VFloat (Fin 1000); "duration" := VInt 12;
                     "tan" := VFloat DEFAULT_TAN ]};
     log := [] |}.

(** The two failure notices. *)
Definition error_reply (e : event) : Prop :=
  e = ReplyText build_error_text NoMarkup \/ e = ReplyText send_error_text NoMarkup.

(** ** The specification's vocabulary *)

Module Spec.
Local Open Scope Q_scope.

(** The payment before rounding, in the words of the specification:
    [principal / months] when the monthly rate [r] is zero, the annuity
    formula otherwise. *)
Definition annuity (principal : Q) (months : Z) (annualRatePercent : Q) : Q :=
  let r := annualRatePercent / 100 / 12 in
  if Qeq_bool r 0 then principal / inject_Z months
  else principal * r * (1 + r) ^ months / ((1 + r) ^ months - 1).

(** [y] is [x] rounded to two decimal places, a tie going to the even
    hundredth. *)
Definition half_even_2dp (x y : Q) : Prop :=
  exists n : Z,
    y == inject_Z n / 100 /\
    inject_Z n - (1 # 2) <= x * 100 <= inject_Z n + (1 # 2) /\
    (x * 100 == inject_Z n - (1 # 2) \/ x * 100 == inject_Z n + (1 # 2) ->
     Z.even n = true).

(** [y] is [x] rounded to two decimal places, a tie going up. *)
Definition half_up_2dp (x y : Q) : Prop :=
  exists n : Z,
    y == inject_Z n / 100 /\
    inject_Z n - (1 # 2) <= x * 100 < inject_Z n + (1 # 2).

End Spec.

(** An environment in which every build and every delivery succeeds, and
    two in which the builder, resp. the transport, always raises. *)
Definition all_fine : env :=
  {| build_raises := fun _ => false; send_raises := fun _ _ => false;
     bot_username := "cubic_bot" |}.
Definition build_broken : env :=
  {| build_raises := fun _ => true; send_raises := fun _ _ => false;
     bot_username := "cubic_bot" |}.
Definition send_broken : env :=
  {| build_raises := fun _ => false; send_raises := fun _ _ => true;
     bot_username := "cubic_bot" |}.

(** ** Vocabulary of the proofs *)

#[local] Instance uint_eq_dec : EqDecision Decimal.uint := Decimal.uint_eq_dec.

(** What may follow a [digitpart]: something that is not itself one and
    does not start with an underscore. *)
Definition stops (rest : list ascii) : Prop :=
  digitpart rest = None /\
  match rest with
  | c :: _ => c <> "_"%char
  | [] => True
  end.

(** Of a two-character list: is the last character white space for the
    number parsers? *)
Definition ends_well (l : list ascii) : option bool :=
  match l with
  | [c1; c2] => Some (is_number_space c2)
  | _ => None
  end.

(** The two digits printed for [k] hundredths read back as [k]. *)
Definition frac_ok (k : N) : Prop :=
  digitpart (chars (NilEmpty.string_of_uint (two_digits k))) = Some (two_digits k, [])
  /\ N.of_uint (two_digits k) = k
  /\ Decimal.nb_digits (two_digits k) = 2%nat
  /\ ends_well (chars (NilEmpty.string_of_uint (two_digits k))) = Some false.

#[local] Instance frac_ok_dec (k : N) : Decision (frac_ok k).
Proof. unfold frac_ok. apply _. Defined.

(** ** Sessions *)

(** The rate a text stands for: [float(txt.replace(',','.')) if txt else
    default], as a value. *)
Definition parse_rate (txt : string) (default : pyfloat) : result pyfloat :=
  match txt with
  | EmptyString => Ok default
  | _ => py_float (replace "," "." txt)
  end.

(** A text the menu filter lets through. *)
Definition menu_text (t : string) : Prop := menu_filter (message t) = true.

(** The user data once the name, the amount, the duration and the TAN have
    been stored. *)
Definition session_data (t n : string) (a : pyfloat) (m : Z) (tan : pyfloat)
  : gmap string pyval :=
  <["tan" := VFloat tan]>
    (<["duration" := VInt m]>
       (<["amount" := VFloat a]>
          (<["name" := VStr n]> {[ "doc_type" := VStr t ]}))).

(** The user data a builder is given by [ask_taeg]. *)
Definition document_data (t n : string) (a : pyfloat) (m : Z)
    (tan taeg p : pyfloat) : gmap string pyval :=
  <["payment" := VFloat p]> (<["taeg" := VFloat taeg]> (session_data t n a m tan)).

(** What the user data look like in each state of a conversation; the
    amount is a value [round(..., 2)] returned. *)
Definition well_formed (conv : option state) (d : gmap string pyval) : Prop :=
  match conv with
  | None => True
  | Some CHOOSING_DOC => d = ∅
  | Some ASK_NAME => exists t, menu_text t /\ d = {[ "doc_type" := VStr t ]}
  | Some ASK_AMOUNT =>
      exists t n, menu_text t /\ t <> "/garanzia"%string /\
        d = <["name" := VStr n]> {[ "doc_type" := VStr t ]}
  | Some ASK_DURATION =>
      exists t n a, menu_text t /\ t <> "/garanzia"%string /\
        d = <["amount" := VFloat (py_round2 a)]>
              (<["name" := VStr n]> {[ "doc_type" := VStr t ]})
  | Some ASK_TAN =>
      exists t n a m, menu_text t /\ t <> "/garanzia"%string /\
        d = <["duration" := VInt m]>
              (<["amount" := VFloat (py_round2 a)]>
                 (<["name" := VStr n]> {[ "doc_type" := VStr t ]}))
  | Some ASK_TAEG =>
      exists t n a m tan, menu_text t /\ t <> "/garanzia"%string /\
        (d = session_data t n (py_round2 a) m tan \/
         exists taeg,
           d = <["taeg" := VFloat taeg]> (session_data t n (py_round2 a) m tan))
  end.

(** A builder call whose data are those of one finished collection, with
    the rounded amount and the payment computed from them. *)
Definition complete (call : build_call) : Prop :=
  match call with
  | Garanzia _ => True
  | Contratto d =>
      exists n a m tan taeg p,
        d = document_data "/contratto" n (py_round2 a) m tan taeg p /\
        monthly_payment (py_round2 a) m tan = Ok p
  | Carta d =>
      exists t n a m tan taeg p,
        menu_text t /\ t <> "/contratto"%string /\ t <> "/garanzia"%string /\
        d = document_data t n (py_round2 a) m tan taeg p /\
        monthly_payment (py_round2 a) m tan = Ok p
  end.

(** [data.get("luogo", "Lisboa")] of [build_contratto]: the place printed
    before the date. *)
Definition luogo (data : gmap string pyval) : pyval :=
  match data !! "luogo" with
  | Some v => v
  | None => VStr "Lisboa"
  end.

(** The builder call [ask_taeg] makes for the user data [d] of a document
    of type [t] in the name of [n], and the name of the file it sends. *)
Definition loan_call (t : string) (d : gmap string pyval) : build_call :=
  if String.eqb t "/contratto" then Contratto d else Carta d.
Definition loan_filename (t n : string) : string :=
  (if String.eqb t "/contratto" then "Contratto_" else "Carta_") +:+ n +:+ ".pdf".

(** A float is shown exactly by [money] when the number in the string it
    returns reads back, with [float], as the float itself. *)
Definition shown_exactly (v : pyfloat) : Prop :=
  forall q s, v = Fin q -> money v = Ok s ->
    exists payload q',
      s = ("€ " ++ payload)%string /\ py_float payload = Ok (Fin q') /\ (q' == q)%Q.

(** ** Page decorations *)

Module Page.
Import Draw.
Local Open Scope Q_scope.

(** An A4 page is 297 mm high. *)
Definition A4_height : Q := 297 * (cm / 10).

Definition LOGO_PATH : string := "image1.png".

(** What a page callback asks of its canvas. *)
Inductive page_op : Type :=
| SaveState
| SetStrokeColor (hex : string)
| SetLineWidth (w : Q)
| Rect (x y w h : Q)
| DrawImage (path : string) (x y w h : Q)
| RestoreState.

(** What the callbacks read from outside the program: the files that
    exist, and the pixel size [ImageReader(path).getSize()] gives, [None]
    when reading the image raises. *)
Record images : Type := {
  path_exists : string -> bool;
  reader : string -> option (Z * Z)
}.

(** [_border] *)
Definition _border : list page_op :=
  [SaveState; SetStrokeColor "#0c3270"; SetLineWidth 5;
   Rect (1 * cm) (1 * cm) (A4_width - 2 * cm) (A4_height - 2 * cm);
   RestoreState].

(** The module's [draw_logo], the one of the two letters: a logo of a
    fixed size; what reading the image raises is caught and printed. *)
Definition draw_logo (I : images) : list page_op :=
  if path_exists I LOGO_PATH then
    match reader I LOGO_PATH with
    | Some _ =>
        let logo_width := (55 # 10) * cm in
        let logo_height := (32 # 10) * cm in
        let x := (A4_width - logo_width) / 2 in
        let y := A4_height - 2 * cm - logo_height in
        [DrawImage LOGO_PATH x y logo_width logo_height]
    | None => []
    end
  else [].

(** [border_and_logo] *)
Definition border_and_logo (I : images) : list page_op :=
  _border ++ draw_logo I.

(** The [draw_logo] of [build_contratto]: a logo of a fixed height and of
    the proportions of the image. *)
Definition draw_logo_contratto (I : images) : list page_op :=
  if path_exists I LOGO_PATH then
    match reader I LOGO_PATH with
    | Some (iw, ih) =>
        let desired_h := (32 # 10) * cm / (3 # 2) in
        let aspect := if (ih =? 0)%Z then 1 else inject_Z iw / inject_Z ih in
        let logo_height := desired_h in
        let logo_width := desired_h * aspect in
        let x := A4_width - 2 * cm - logo_width in
        let y := A4_height - (12 # 10) * cm - logo_height in
        [DrawImage LOGO_PATH x y logo_width logo_height]
    | None => []
    end
  else [].

End Page.

(** ** Number formatting *)

(** [s.rstrip(c)] for a single character [c] *)
Definition rstrip (c : ascii) (s : list ascii) : list ascii :=
  rev (lstrip (Ascii.eqb c) (rev s)).

(** The last [dec] decimal digits of [k], most significant first, put
    before [acc]. *)
Fixpoint digits_of (dec : nat) (k : N) (acc : Decimal.uint) : Decimal.uint :=
  match dec with
  | O => acc
  | S dec' => digits_of dec' (k / 10) (digit_of (k mod 10) acc)
  end.

(** [f"{x:.{dec}f}"]: the magnitude rounded to [dec] decimals, ties to
    even, after the sign of [x]; no point when [dec] is zero.  (As [pyfloat]
    has no negative zero, [-0.0] is printed as [0.0] is.) *)
Definition format_fixed (dec : nat) (x : pyfloat) : string :=
  match x with
  | Fin q =>
      let n := Z.to_N (round_half_even (Qabs q * 10 ^ Z.of_nat dec)) in
      let scale := (10 ^ N.of_nat dec)%N in
      ((if Qnegb q then "-" else "")
       ++ NilEmpty.string_of_uint (N.to_uint (n / scale))
       ++ match dec with
          | O => ""
          | S _ => "." ++ NilEmpty.string_of_uint (digits_of dec (n mod scale) Decimal.Nil)
          end)%string
  | Inf neg => if neg then "-inf" else "inf"
  | NaN => "nan"
  end.

(** [str(n)] of an int *)
Definition str_of_int (n : Z) : string :=
  ((if (n <? 0)%Z then "-" else "")
   ++ NilEmpty.string_of_uint (N.to_uint (Z.abs_N n)))%string.

(** [fmt_num(val, dec)] of [build_contratto]:
    [f"{val:.{dec}f}".replace('.', ',').rstrip('0').rstrip(',')] for a
    float, [str(val)] for anything else. *)
Definition fmt_num (val : pyval) (dec : nat) : string :=
  match val with
  | VFloat x =>
      str (rstrip "," (rstrip "0" (chars (replace "." "," (format_fixed dec x)))))
  | VInt n => str_of_int n
  | VStr s => s
  end.

(** The decimals of [k] hundredths, most significant first, without
    trailing zeros. *)
Definition decimals (k : N) : Decimal.uint :=
  if (k =? 0)%N then Decimal.Nil
  else digit_of (k / 10)
         (if (k mod 10 =? 0)%N then Decimal.Nil else digit_of (k mod 10) Decimal.Nil).

(** Is [c] an ASCII digit? *)
Definition isdigit (c : ascii) : bool :=
  match digit c with
  | Some _ => true
  | None => false
  end.

(* ---------------------------------------------------------------- *)
(** * Properties *)

(** ** The calculator *)

Section Calculator.
Local Open Scope Q_scope.

Example monthly_payment_1200 :
  monthly_payment (Fin 1200) 12 (Fin 0) = Ok (Fin 100).
Proof. reflexivity. Qed.

Example monthly_payment_eighth :
  monthly_payment (Fin 1) 8 (Fin 0) = Ok (Fin (3 # 25)).
Proof. reflexivity. Qed.

Example monthly_payment_zero_months :
  monthly_payment (Fin 1000) 0 DEFAULT_TAN = Raise ZeroDivisionError.
Proof. reflexivity. Qed.

Lemma Qzerob_true (q : Q) : Qzerob q = true <-> q == 0.
Proof.
  unfold Qzerob, Qeq. simpl. rewrite Z.eqb_eq. lia.
Qed.

Lemma Qzerob_false (q : Q) : Qzerob q = false <-> ~ q == 0.
Proof.
  rewrite <- Qzerob_true. destruct (Qzerob q); intuition congruence.
Qed.

Lemma Qzerob_Qeq_bool (q : Q) : Qeq_bool q 0 = Qzerob q.
Proof.
  destruct (Qzerob q) eqn:E.
  - apply Qeq_bool_iff. now apply Qzerob_true.
  - apply Qzerob_false in E. destruct (Qeq_bool q 0) eqn:E'; [|reflexivity].
    apply Qeq_bool_iff in E'. contradiction.
Qed.

Lemma inject_Z_succ (f : Z) : inject_Z (f + 1) == inject_Z f + 1.
Proof. rewrite inject_Z_plus. reflexivity. Qed.

(** [round_half_even] picks a nearest integer, and the even one of two. *)
Lemma round_half_even_nearest (x : Q) :
  inject_Z (round_half_even x) - (1 # 2) <= x
    <= inject_Z (round_half_even x) + (1 # 2) /\
  (x == inject_Z (round_half_even x) - (1 # 2)
   \/ x == inject_Z (round_half_even x) + (1 # 2) ->
   Z.even (round_half_even x) = true).
Proof.
  unfold round_half_even.
  pose proof (Qfloor_le x) as Hlo. pose proof (Qlt_floor x) as Hhi.
  rewrite inject_Z_succ in Hhi.
  set (f := Qfloor x) in *.
  destruct (Qcompare (x - inject_Z f) (1 # 2)) eqn:C.
  - apply Qeq_alt in C.
    destruct (Z.even f) eqn:Ev.
    + split; [lra | intros _; exact Ev].
    + rewrite inject_Z_succ. split; [lra |].
      intros _. rewrite Z.even_add, Ev. reflexivity.
  - apply Qlt_alt in C. split; [lra | intros [H | H]; lra].
  - apply Qgt_alt in C. rewrite inject_Z_succ. split; [lra | intros [H | H]; lra].
Qed.

Lemma round2_half_even (x : Q) : Spec.half_even_2dp x (round2 x).
Proof.
  exists (round_half_even (x * 100)). split.
  - unfold round2. rewrite Qred_correct. unfold Qeq, Qdiv. simpl. lia.
  - apply round_half_even_nearest.
Qed.

Lemma half_even_2dp_compat (x x' y : Q) :
  x == x' -> Spec.half_even_2dp x y -> Spec.half_even_2dp x' y.
Proof.
  intros E (n & Hy & Hb & Ht). exists n. rewrite <- E. auto.
Qed.




Example monthly_payment_reference :
  monthly_payment (Fin 10000) 24 (Fin (393 # 50)) = Ok (Fin (45163 # 100)).
Proof. vm_compute. reflexivity. Qed.

End Calculator.

(** ** Parsing *)

Section Parsing.
Local Open Scope Q_scope.

Example py_float_examples :
  py_float "1000" = Ok (Fin 1000) /\
  py_float "abc" = Raise ValueError /\
  py_float "" = Raise ValueError /\
  py_float " " = Raise ValueError /\
  py_float "." = Raise ValueError /\
  py_float "1e" = Raise ValueError /\
  py_float "1_000.5" = Ok (Fin (2001 # 2)) /\
  py_float "1__0" = Raise ValueError /\
  py_float "-NaN" = Ok NaN /\
  py_float " -Infinity " = Ok (Inf true) /\
  py_float "1 2" = Raise ValueError.
Proof. vm_compute. repeat split. Qed.

Example py_float_more :
  py_float " -.5e1 " = Ok (Fin (- (5 # 1))) /\
  py_float "7.86" = Ok (Fin (393 # 50)) /\
  py_float "5." = Ok (Fin 5).
Proof. vm_compute. repeat split. Qed.

Example py_int_examples :
  py_int "12" = Ok 12%Z /\ py_int " -5 " = Ok (-5)%Z /\ py_int "0" = Ok 0%Z /\
  py_int "1.5" = Raise ValueError /\ py_int "" = Raise ValueError /\
  py_int "+1_2" = Ok 12%Z /\ py_int "abc" = Raise ValueError.
Proof. vm_compute. repeat split. Qed.

Example replace_examples :
  replace "€" "" "€ 1.000,50€" = " 1.000,50" /\
  replace "," "." "1,5,6" = "1.5.6" /\ strip "  a b  " = "a b".
Proof. vm_compute. repeat split. Qed.

End Parsing.

(** ** Currency display *)

Section Money.
Local Open Scope Q_scope.

Example money_examples :
  money (Fin (1 # 8)) = Ok "€ 0.13"%string /\
  money (Fin 0) = Ok "€ 0.00"%string /\
  money (Fin (-(1 # 1000))) = Ok "€ -0.00"%string /\
  money (Fin (123456 # 100)) = Ok "€ 1234.56"%string /\
  money (Fin (-(5 # 1000))) = Ok "€ -0.01"%string /\
  money (Fin (5 # 100)) = Ok "€ 0.05"%string /\
  money (Inf false) = Raise InvalidOperation.
Proof. vm_compute. repeat split. Qed.

Lemma chars_app (a b : string) : chars (a ++ b)%string = (chars a ++ chars b)%list.
Proof. induction a as [|c a IH]; simpl; [reflexivity|]. unfold chars in *. simpl. now rewrite IH. Qed.

Lemma str_chars (s : string) : str (chars s) = s.
Proof. apply string_of_list_ascii_of_string. Qed.

Lemma digitpart_step c D s' :
  digit c = Some D ->
  match s' with c' :: _ => c' <> "_"%char | [] => True end ->
  digitpart (c :: s') =
    match digitpart s' with Some (d, rest) => Some (D d, rest) | None => Some (D Decimal.Nil, s') end.
Proof.
  intros Hc Hs. cbn [digitpart]. rewrite Hc.
  destruct s' as [|c' s'']; [reflexivity|].
  destruct c' as [[] [] [] [] [] [] [] []]; try reflexivity. contradiction.
Qed.

Lemma string_of_uint_head (d : Decimal.uint) (rest : list ascii) :
  d <> Decimal.Nil ->
  match (chars (NilEmpty.string_of_uint d) ++ rest)%list with c' :: _ => c' <> "_"%char | [] => True end.
Proof.
  destruct d; intros H; try contradiction; unfold chars; simpl; discriminate.
Qed.

Lemma digitpart_render (d : Decimal.uint) (rest : list ascii) :
  d <> Decimal.Nil -> stops rest ->
  digitpart (chars (NilEmpty.string_of_uint d) ++ rest)%list = Some (d, rest).
Proof.
  intros Hd [Hr1 Hr2]. induction d; try contradiction.
  all: unfold chars; cbn [NilEmpty.string_of_uint list_ascii_of_string app]; fold (chars (NilEmpty.string_of_uint d)).
  all: erewrite digitpart_step;
    [ | reflexivity | destruct d; [exact Hr2 | apply string_of_uint_head; discriminate ..] ].
  all: destruct d; [unfold chars; simpl; rewrite Hr1; reflexivity | rewrite IHd by discriminate; reflexivity ..].
Qed.

Lemma below_all (P : N -> bool) (b : nat) :
  forallb P (map N.of_nat (seq 0 b)) = true -> forall k : N, (k < N.of_nat b)%N -> P k = true.
Proof.
  intros H k Hk. rewrite forallb_forall in H. apply H.
  apply in_map_iff. exists (N.to_nat k). split; [apply N2Nat.id|].
  apply in_seq. lia.
Qed.

Lemma two_digits_ok (k : N) : (k < 100)%N -> frac_ok k.
Proof.
  intros Hk.
  assert (H : forallb (fun j => bool_decide (frac_ok j)) (map N.of_nat (seq 0 100)) = true)
    by (vm_compute; reflexivity).
  exact (bool_decide_eq_true_1 _ (below_all _ 100 H k Hk)).
Qed.

Lemma lstrip_id (space : ascii -> bool) (c : ascii) (s : list ascii) :
  space c = false -> lstrip space (c :: s) = c :: s.
Proof. intros H. simpl. now rewrite H. Qed.

Lemma strip_chars_id (space : ascii -> bool) (c : ascii) (s : list ascii) (c' : ascii) :
  space c = false -> space c' = false ->
  strip_chars space (c :: s ++ [c']) = c :: s ++ [c'].
Proof.
  intros H H'. unfold strip_chars. rewrite lstrip_id by assumption.
  change (c :: s ++ [c'])%list with ((c :: s) ++ [c'])%list.
  rewrite rev_unit, lstrip_id by assumption.
  change (rev (c' :: rev (c :: s))) with (rev (rev (c :: s)) ++ [c'])%list.
  now rewrite rev_involutive.
Qed.

Lemma to_uint_nonnil (n : N) : N.to_uint n <> Decimal.Nil.
Proof. destruct n; [discriminate | apply DecimalPos.Unsigned.to_uint_nonnil]. Qed.

Lemma Qfloor_half (z : Z) : Qfloor (inject_Z z + (1 # 2)) = z.
Proof.
  pose proof (Qfloor_le (inject_Z z + (1 # 2))) as Hlo.
  pose proof (Qlt_floor (inject_Z z + (1 # 2))) as Hhi.
  revert Hlo Hhi. generalize (Qfloor (inject_Z z + (1 # 2))). intros f.
  unfold Qle, Qlt. simpl. lia.
Qed.

Lemma cents_value (n : N) :
  (inject_Z (Z.of_N (n / 100)) + inject_Z (Z.of_N (n mod 100)) / 10 ^ Z.of_nat 2) * 10 ^ 0
  == inject_Z (Z.of_N n) / 100.
Proof.
  rewrite (N.div_mod' n 100) at 3.
  rewrite N2Z.inj_add, N2Z.inj_mul, inject_Z_plus, inject_Z_mult.
  change (10 ^ Z.of_nat 2) with 100. change (10 ^ 0) with 1.
  change (inject_Z (Z.of_N 100)) with 100. field.
Qed.

Lemma digit_char_facts (c : ascii) (D : Decimal.uint -> Decimal.uint) :
  digit c = Some D ->
  is_number_space c = false /\
  (forall X, sign (c :: X) = (false, c :: X)) /\
  (forall X, String.eqb (str (map lower_char (c :: X))) "inf" = false
          /\ String.eqb (str (map lower_char (c :: X))) "infinity" = false
          /\ String.eqb (str (map lower_char (c :: X))) "nan" = false).
Proof.
  destruct c as [[] [] [] [] [] [] [] []]; try discriminate; intros _;
    repeat split; reflexivity.
Qed.

Lemma string_of_uint_cons (d : Decimal.uint) :
  d <> Decimal.Nil ->
  exists c D X, chars (NilEmpty.string_of_uint d) = c :: X /\ digit c = Some D.
Proof.
  destruct d; intros H; try contradiction; unfold chars; simpl; eauto.
Qed.

Lemma parse_cents (neg : bool) (n : N) :
  parse_literal (cents_to_string neg n)
  = Some (LFin neg (magnitude (N.to_uint (n / 100)) (two_digits (n mod 100)) 0)).
Proof.
  destruct (two_digits_ok (n mod 100)) as (Hf & _ & _ & He).
  { apply N.mod_lt. discriminate. }
  set (F := NilEmpty.string_of_uint (two_digits (n mod 100))) in *.
  destruct (chars F) as [|c1 [|c2 [|]]] eqn:EF; try discriminate.
  injection He as He.
  pose proof (to_uint_nonnil (n / 100)) as HI.
  set (I := N.to_uint (n / 100)) in *.
  assert (Hnum : number (chars (NilEmpty.string_of_uint I) ++ "."%char :: [c1; c2])%list
      = Some (I, two_digits (n mod 100), [])).
  { unfold number. rewrite digitpart_render; [| assumption | split; [reflexivity | discriminate]].
    rewrite Hf. reflexivity. }
  destruct (string_of_uint_cons I HI) as (c0 & D & X & HX & Hc0).
  destruct (digit_char_facts c0 D Hc0) as (Hsp & Hsign & Hword).
  rewrite HX in Hnum. cbn [app] in Hnum.
  assert (E : (X ++ ["."%char; c1; c2] = (X ++ ["."%char; c1]) ++ [c2])%list)
    by (rewrite <- app_assoc; reflexivity).
  unfold parse_literal, cents_to_string.
  rewrite !chars_app. fold F. fold I. rewrite EF, HX.
  change (chars ".") with ["."%char]. cbn [app].
  destruct neg.
  - change (chars "-") with ["-"%char]. cbn [app].
    replace (c0 :: X ++ ["."%char; c1; c2])%list
      with ((c0 :: X ++ ["."%char; c1]) ++ [c2])%list
      by (cbn [app]; rewrite <- app_assoc; reflexivity).
    rewrite strip_chars_id by (reflexivity || assumption).
    cbn [sign app]. rewrite <- E.
    destruct (Hword (X ++ ["."%char; c1; c2])%list) as (-> & -> & ->).
    cbn [orb]. rewrite Hnum. reflexivity.
  - change (chars "") with (@nil ascii). cbn [app].
    rewrite E, strip_chars_id by assumption. rewrite <- E.
    rewrite Hsign.
    destruct (Hword (X ++ ["."%char; c1; c2])%list) as (-> & -> & ->).
    cbn [orb]. rewrite Hnum. reflexivity.
Qed.

Lemma Qnegb_true (q : Q) : Qnegb q = true <-> q < 0.
Proof. unfold Qnegb, Qlt. simpl. rewrite Z.ltb_lt. lia. Qed.

Lemma Qnegb_false (q : Q) : Qnegb q = false <-> 0 <= q.
Proof. unfold Qnegb, Qle. simpl. rewrite Z.ltb_ge. lia. Qed.

Lemma round_half_up_nonneg (x : Q) : 0 <= x -> (0 <= round_half_up x)%Z.
Proof.
  intros H. unfold round_half_up.
  change 0%Z with (Qfloor 0). apply Qfloor_resp_le. lra.
Qed.

Lemma quantize_cents_exact (n : N) (mag : Q) :
  mag == inject_Z (Z.of_N n) / 100 -> quantize_cents mag = n.
Proof.
  intros E. unfold quantize_cents, round_half_up.
  assert (E' : mag * 100 + (1 # 2) == inject_Z (Z.of_N n) + (1 # 2)) by (rewrite E; field).
  rewrite E', Qfloor_half. apply N2Z.id.
Qed.

Lemma magnitude_cents (n : N) :
  magnitude (N.to_uint (n / 100)) (two_digits (n mod 100)) 0 == inject_Z (Z.of_N n) / 100.
Proof.
  destruct (two_digits_ok (n mod 100)) as (_ & Hv & Hd & _).
  { apply N.mod_lt. discriminate. }
  unfold magnitude. rewrite Qred_correct, Hd, Hv, DecimalN.Unsigned.of_to.
  apply cents_value.
Qed.

Lemma Qabs_nonneg_eq (x : Q) : 0 <= x -> Qabs x = x /\ Qabs (- x) = x.
Proof.
  destruct x as [a b]. unfold Qle, Qabs, Qopp. simpl. intros H.
  split; f_equal; lia.
Qed.

(** C9.  [money] is idempotent: when [money(v)] returns ["€ D.DD"], its
    numeric payload [D.DD] parses (as [Decimal(payload)], which keeps the
    sign of a zero) to [v] rounded half up to two decimals, and formatting
    that number again gives the same string.  Going through
    [float(payload)] gives the same string as well, except for the payload
    ["-0.00"], whose negative zero [pyfloat] does not tell from zero. *)
Theorem money_idempotent (q : Q) (s : string) :
  money (Fin q) = Ok s ->
  exists (payload : string) (d : literal),
    s = ("€ " ++ payload)%string /\
    parse_literal payload = Some d /\
    (exists mag, d = LFin (Qnegb q) mag /\ Spec.half_up_2dp (Qabs q) mag) /\
    money_of_decimal d = Ok s /\
    (Qnegb q = false \/ quantize_cents (Qabs q) <> 0%N ->
     money (float_of_literal d) = Ok s).
Proof.
  unfold money at 1. unfold money_of_decimal at 1. cbn [Decimal_of_float quantize_to_string].
  set (n := quantize_cents (Qabs q)).
  destruct (n <? max_coefficient)%N eqn:Hn; [| discriminate].
  cbn [rbind]. intros [= <-].
  pose proof (magnitude_cents n) as Hmag.
  set (mag := magnitude (N.to_uint (n / 100)) (two_digits (n mod 100)) 0) in *.
  assert (Hq : quantize_cents mag = n) by (apply quantize_cents_exact, Hmag).
  assert (Hout : money_of_decimal (LFin (Qnegb q) mag)
                 = Ok ("€ " ++ cents_to_string (Qnegb q) n)%string).
  { unfold money_of_decimal. cbn [quantize_to_string]. rewrite Hq, Hn. reflexivity. }
  exists (cents_to_string (Qnegb q) n), (LFin (Qnegb q) mag).
  split; [reflexivity |]. split; [apply parse_cents |].
  split; [| split; [exact Hout |]].
  - exists mag. split; [reflexivity |].
    exists (Z.of_N n). split; [exact Hmag |].
    unfold n, quantize_cents. rewrite Z2N.id.
    2:{ apply round_half_up_nonneg. pose proof (Qabs_nonneg q). lra. }
    unfold round_half_up.
    pose proof (Qfloor_le (Qabs q * 100 + (1 # 2))).
    pose proof (Qlt_floor (Qabs q * 100 + (1 # 2))) as Hhi.
    rewrite inject_Z_succ in Hhi. lra.
  - intros Hz. unfold money. rewrite <- Hout. f_equal.
    cbn [float_of_literal Decimal_of_float].
    assert (H0 : 0 <= mag).
    { rewrite Hmag. apply Qle_shift_div_l; [reflexivity |].
      unfold Qle. simpl. lia. }
    destruct (Qnegb q) eqn:Hs.
    + destruct Hz as [Hz | Hz]; [discriminate |].
      assert (Hpos : 0 < mag).
      { rewrite Hmag. apply Qlt_shift_div_l; [reflexivity |].
        unfold Qlt. simpl. lia. }
      assert (Qnegb (- mag) = true) as -> by (apply Qnegb_true; lra).
      f_equal. apply Qabs_nonneg_eq, H0.
    + assert (Qnegb mag = false) as -> by (apply Qnegb_false; exact H0).
      f_equal. apply Qabs_nonneg_eq, H0.
Qed.

Lemma money_idempotent_witness :
  exists (payload : string) (d : literal),
    "€ 0.13"%string = ("€ " ++ payload)%string /\
    parse_literal payload = Some d /\
    (exists mag, d = LFin (Qnegb (1 # 8)) mag /\ Spec.half_up_2dp (Qabs (1 # 8)) mag) /\
    money_of_decimal d = Ok "€ 0.13"%string /\
    (Qnegb (1 # 8) = false \/ quantize_cents (Qabs (1 # 8)) <> 0%N ->
     money (float_of_literal d) = Ok "€ 0.13"%string).
Proof.
  apply (money_idempotent (1 # 8) "€ 0.13"). reflexivity.
Defined.

End Money.

(** ** Signature lines *)

Section Signature.
Import Draw.
Local Open Scope Q_scope.




Example carta_signature_flush_right :
  exists x y w h,
    draw_lettera sample_assets carta_line
      = Ok [SaveState; SetFont "Helvetica" 9;
            DrawString 0 0 (label carta_line);
            DrawImage SIGNATURE_PATH x y w h; RestoreState] /\
    x + w == width carta_line.
Proof.
  eexists _, _, _, _. split; [reflexivity |]. vm_compute. reflexivity.
Qed.

Example client_line_has_no_image :
  draw_contratto sample_assets contratto_client_line
    = Ok [SaveState; SetFont "Helvetica" 11;
          DrawString 0 0 (label contratto_client_line); SetLineWidth 1;
          Line (250 + 6) 0 line_width 0; RestoreState].
Proof. reflexivity. Qed.

End Signature.

(** ** The conversation *)

Section Conversation.
Local Open Scope Q_scope.

Ltac no_prompt :=
  let Hin := fresh in let Hp := fresh in
  intros ? ? Hin Hp; cbn in Hin, Hp;
  repeat (destruct Hin as [Hin | Hin]; [inversion Hin; subst; clear Hin |]);
  try contradiction;
  repeat (destruct Hp as [Hp | Hp]; [discriminate Hp |]); contradiction.

(** *** What the handlers do *)

Lemma round_half_even_nonneg (x : Q) : 0 <= x -> (0 <= round_half_even x)%Z.
Proof.
  intros H. unfold round_half_even.
  assert (0 <= Qfloor x)%Z by (change 0%Z with (Qfloor 0); now apply Qfloor_resp_le).
  destruct (Qcompare _ _); [destruct (Z.even _) |..]; lia.
Qed.

Lemma round2_nonneg (q : Q) : 0 <= q -> 0 <= round2 q.
Proof.
  intros H. unfold round2. rewrite Qred_correct.
  assert (0 <= round_half_even (q * 100))%Z by (apply round_half_even_nonneg; lra).
  unfold Qle. simpl. lia.
Qed.

Lemma rate_of_pure (txt : string) (d : pyfloat) (w : world) :
  exists r, rate_of txt d w = (w, r).
Proof. unfold rate_of, ret, lift. destruct txt; eauto. Qed.

Lemma is_str_true (s : string) (v : pyval) : is_str s v = true -> v = VStr s.
Proof.
  destruct v; try discriminate. cbn. intros H. apply String.eqb_eq in H. now subst.
Qed.

Lemma builds_app (l l' : list event) : builds (l ++ l') = builds l ++ builds l'.
Proof. apply omap_app. Qed.

(** What [ask_name] does for the guarantee letter. *)
Lemma ask_name_garanzia (E : env) (v : update) (w : world) :
  user_data w !! "doc_type" = Some (VStr "/garanzia") ->
  let name := strip (text v) in
  let filename := "Garanzia_" +:+ name +:+ ".pdf" in
  ask_name E v w =
    if build_raises E (Garanzia name) then
      ({| user_data := user_data w;
          log := log w ++ [Build (Garanzia name); ReplyText build_error_text NoMarkup] |},
       Ok END)
    else if send_raises E (Garanzia name) filename then
      ({| user_data := user_data w;
          log := log w ++ [Build (Garanzia name); ReplyDocument (Garanzia name) filename;
                           ReplyText send_error_text NoMarkup] |},
       Ok END)
    else
      ({| user_data := ∅;
          log := log w ++ [Build (Garanzia name); ReplyDocument (Garanzia name) filename;
                           welcome] |},
       Ok (To CHOOSING_DOC)).
Proof.
  intros Hdt name filename. unfold ask_name. fold name. fold filename.
  unfold bind at 1. unfold get_item. rewrite Hdt.
  change (is_str "/garanzia" (VStr "/garanzia")) with true. cbv iota.
  destruct (build_raises E (Garanzia name)) eqn:Hb;
    [| destruct (send_raises E (Garanzia name) filename) eqn:Hs];
    unfold build, reply_document, reply_text, start, welcome;
    unfold reply_text; unfold bind, try, emit, clear, ret, raise;
    cbn [user_data log]; rewrite ?Hb; cbn [user_data log];
    rewrite ?Hs; cbn [user_data log]; rewrite <- ?app_assoc; reflexivity.
Qed.

Lemma ask_name_other (E : env) (v : update) (w : world) (dt : pyval) :
  user_data w !! "doc_type" = Some dt -> is_str "/garanzia" dt = false ->
  ask_name E v w =
    ({| user_data := <["name" := VStr (strip (text v))]> (user_data w);
        log := log w ++ [ReplyText "Inserisci importo (€):" NoMarkup] |},
     Ok (To ASK_AMOUNT)).
Proof.
  intros Hdt Hs. unfold ask_name. unfold bind at 1. unfold get_item. rewrite Hdt, Hs.
  reflexivity.
Qed.

Lemma ask_name_no_doc_type (E : env) (v : update) (w : world) :
  user_data w !! "doc_type" = None ->
  ask_name E v w = (w, Raise (KeyError "doc_type")).
Proof.
  intros Hdt. unfold ask_name. unfold bind at 1. unfold get_item. rewrite Hdt.
  reflexivity.
Qed.


Lemma ask_taeg_returns (E : env) (u : update) (w w' : world) (r : next) :
  ask_taeg E u w = (w', Ok r) ->
  exists taeg va vd vt amount duration tan p dt,
    rate_of (strip (text u)) DEFAULT_TAEG w = (w, Ok taeg) /\
    user_data w !! "amount" = Some va /\ float_of va = Ok amount /\
    user_data w !! "duration" = Some vd /\ int_of vd = Ok duration /\
    user_data w !! "tan" = Some vt /\ float_of vt = Ok tan /\
    monthly_payment amount duration tan = Ok p /\
    user_data w !! "doc_type" = Some dt /\
    let d := <["payment" := VFloat p]> (<["taeg" := VFloat taeg]> (user_data w)) in
    let call := if is_str "/contratto" dt then Contratto d else Carta d in
    (r = END /\ user_data w' = d /\
       (log w' = log w ++ [Build call; ReplyText build_error_text NoMarkup] \/
        exists f, log w' = log w ++ [Build call; ReplyDocument call f;
                                      ReplyText send_error_text NoMarkup])) \/
    (r = To CHOOSING_DOC /\ user_data w' = ∅ /\
       exists f, log w' = log w ++ [Build call; ReplyDocument call f; welcome]).
Proof.
  unfold ask_taeg. unfold bind at 1.
  destruct (rate_of_pure (strip (text u)) DEFAULT_TAEG w) as [[taeg | e] Hr];
    rewrite Hr; [| discriminate].
  unfold bind at 1. unfold set_item at 1. cbn [user_data log].
  unfold bind at 1. unfold bind at 1. unfold get_item at 1. cbn [user_data].
  rewrite lookup_insert_ne by discriminate.
  destruct (user_data w !! "amount") as [va |] eqn:Ha; [| discriminate].
  unfold lift at 1. destruct (float_of va) as [amount | e] eqn:Hfa; [| discriminate].
  unfold bind at 1. unfold bind at 1. unfold get_item at 1. cbn [user_data].
  rewrite lookup_insert_ne by discriminate.
  destruct (user_data w !! "duration") as [vd |] eqn:Hd; [| discriminate].
  unfold lift at 1. destruct (int_of vd) as [duration | e] eqn:Hfd; [| discriminate].
  unfold bind at 1. unfold bind at 1. unfold get_item at 1. cbn [user_data].
  rewrite lookup_insert_ne by discriminate.
  destruct (user_data w !! "tan") as [vt |] eqn:Ht; [| discriminate].
  unfold lift at 1. destruct (float_of vt) as [tan | e] eqn:Hft; [| discriminate].
  unfold bind at 1. unfold lift at 1.
  destruct (monthly_payment amount duration tan) as [p | e] eqn:Hp; [| discriminate].
  unfold bind at 1. unfold set_item at 1. cbn [user_data log].
  unfold bind at 1. unfold get_item at 1. cbn [user_data].
  rewrite !lookup_insert_ne by discriminate.
  destruct (user_data w !! "doc_type") as [dt |] eqn:Hdt; [| discriminate].
  intros H.
  exists taeg, va, vd, vt, amount, duration, tan, p, dt.
  repeat (split; [first [assumption | reflexivity] |]).
  cbv zeta. revert H.
  unfold build_document.
  unfold build, reply_document, reply_text, start, welcome;
    unfold reply_text; unfold bind, try, emit, clear, ret, raise, get_item, lift;
    cbn [user_data log].
  set (d := <["payment" := VFloat p]> (<["taeg" := VFloat taeg]> (user_data w))).
  assert (Hn : d !! "name" = user_data w !! "name")
    by (unfold d; rewrite !lookup_insert_ne by discriminate; reflexivity).
  destruct (is_str "/contratto" dt);
    cbn [user_data log];
    (match goal with |- context [build_raises E ?c] =>
       destruct (build_raises E c) end;
     [ intros [= <- <-]; left; cbn [user_data log];
       rewrite <- ?app_assoc; auto |]);
    cbn [user_data log]; rewrite Hn;
    (destruct (user_data w !! "name") as [vn |];
     [ destruct (str_of vn) as [n | e] |]);
    try (intros [= <- <-]; left; cbn [user_data log];
         rewrite <- ?app_assoc; solve [auto]);
    cbn [user_data log];
    match goal with |- context [send_raises E ?c ?f] =>
      destruct (send_raises E c f);
      [ intros [= <- <-]; left | intros [= <- <-]; right ] end;
    cbn [user_data log]; rewrite <- ?app_assoc; eauto 6.
Qed.

Lemma ask_taeg_build (E : env) (u : update) (w w' : world) (r : next) :
  ask_taeg E u w = (w', Ok r) ->
  exists va vd vt amount duration tan p c,
    user_data w !! "amount" = Some va /\ float_of va = Ok amount /\
    user_data w !! "duration" = Some vd /\ int_of vd = Ok duration /\
    user_data w !! "tan" = Some vt /\ float_of vt = Ok tan /\
    monthly_payment amount duration tan = Ok p /\
    builds (log w') = builds (log w) ++ [c] /\
    payment_of c = Some (VFloat p).
Proof.
  intros H. apply ask_taeg_returns in H.
  destruct H as (taeg & va & vd & vt & amount & duration & tan & p & dt
                 & _ & Ha & Hfa & Hd & Hfd & Ht & Hft & Hp & _ & H).
  cbv zeta in H.
  set (d := <["payment" := VFloat p]> (<["taeg" := VFloat taeg]> (user_data w))) in H.
  set (c := if is_str "/contratto" dt then Contratto d else Carta d) in H.
  exists va, vd, vt, amount, duration, tan, p, c.
  repeat (split; [assumption |]).
  assert (Hc : payment_of c = Some (VFloat p)).
  { unfold c. destruct (is_str "/contratto" dt); cbn [payment_of];
      unfold d; apply lookup_insert_eq. }
  split; [| exact Hc].
  destruct H as [(_ & _ & [Hl | [f Hl]]) | (_ & _ & f & Hl)];
    rewrite Hl, builds_app; reflexivity.
Qed.

(** *** What the conversation handler does *)

Lemma prefixes_check (P : list ascii -> bool) (l : list ascii) :
  forallb P (map (fun k => firstn k l) (seq 0 (S (length l)))) = true ->
  forall n, P (firstn n l) = true.
Proof.
  intros H n. rewrite forallb_forall in H. apply H.
  apply in_map_iff.
  destruct (le_lt_dec n (length l)) as [Hle | Hgt].
  - exists n. split; [reflexivity |]. apply in_seq. lia.
  - exists (length l). split.
    + rewrite firstn_all, firstn_all2 by lia. reflexivity.
    + apply in_seq. lia.
Qed.

(** A menu word does not start with the cancel or the start command. *)
Lemma menu_word_no_command (u : update) (len : nat) (name : string) :
  menu_filter u = true -> name = "cancel"%string \/ name = "start"%string ->
  String.eqb (str (map lower_char (fst (command_parts len (text u))))) name = false.
Proof.
  intros Hm Hn. unfold command_parts.
  apply negb_true_iff.
  apply (prefixes_check
           (fun pre => negb (String.eqb (str (map lower_char (fst (until_at pre)))) name))).
  unfold menu_filter in Hm. cbn [existsb] in Hm.
  repeat (apply orb_true_iff in Hm; destruct Hm as [Hm | Hm]);
    try discriminate;
    apply String.eqb_eq in Hm; rewrite Hm;
    destruct Hn as [-> | ->]; vm_compute; reflexivity.
Qed.

Lemma command_not_menu (E : env) (u : update) (name : string) :
  name = "cancel"%string \/ name = "start"%string ->
  command_filter E name u = true ->
  forall s, state_filter s u = false.
Proof.
  intros Hn Hc s. unfold command_filter in Hc.
  destruct (command_entity u) as [len |] eqn:He; [| discriminate].
  assert (Ht : text_filter u = false).
  { unfold text_filter. rewrite He. apply andb_false_r. }
  destruct s; try exact Ht. cbn [state_filter].
  destruct (menu_filter u) eqn:Hm; [| reflexivity].
  pose proof (menu_word_no_command u len name Hm Hn) as Hw.
  destruct (command_parts len (text u)) as [word rest]. cbn [fst] in Hw.
  rewrite Hw in Hc. discriminate.
Qed.

Lemma menu_filter_garanzia (v : update) :
  text v = "/garanzia"%string -> menu_filter v = true.
Proof. intros H. unfold menu_filter. rewrite H. reflexivity. Qed.

Lemma ended_only_start (E : env) (w : world) (u : update) :
  if command_filter E "start" u
  then exists w', handle_update E None w u = (Some CHOOSING_DOC, w') /\
                  user_data w' = ∅
  else handle_update E None w u = (None, w).
Proof.
  unfold handle_update, check_update.
  destruct (command_filter E "start" u); [| reflexivity].
  eexists. split; reflexivity.
Qed.

(** The handlers that can end the conversation, and what they leave. *)
Lemma handler_ends (E : env) (s : state) (w w' : world) (u : update) :
  state_handler E s u w = (w', Ok END) ->
  (s = ASK_NAME \/ s = ASK_TAEG) /\
  is_Some (user_data w' !! "doc_type") /\
  (forall k, k <> "taeg"%string -> k <> "payment"%string ->
     user_data w' !! k = user_data w !! k) /\
  (exists e, last (log w') = Some e /\ error_reply e).
Proof.
  destruct s; cbn [state_handler]; intros H.
  - discriminate H.
  - destruct (user_data w !! "doc_type") as [dt |] eqn:Hdt.
    + destruct (is_str "/garanzia" dt) eqn:Hg.
      * apply is_str_true in Hg. subst dt.
        rewrite (ask_name_garanzia E u w Hdt) in H.
        destruct (build_raises E _); [| destruct (send_raises E _ _)];
          try discriminate H; injection H as <-; cbn [user_data log];
          (split; [auto |]; split; [rewrite Hdt; eauto |];
           split; [reflexivity |]);
          eexists; (split; [rewrite last_app; reflexivity |]);
          unfold error_reply; auto.
      * rewrite (ask_name_other E u w dt Hdt Hg) in H. discriminate H.
    + rewrite (ask_name_no_doc_type E u w Hdt) in H. discriminate H.
  - unfold ask_amount, bind, try, lift in H.
    destruct (py_float _); discriminate H.
  - unfold ask_duration, bind, try, lift in H.
    destruct (py_int _); discriminate H.
  - unfold ask_tan in H. unfold bind at 1 in H.
    destruct (rate_of_pure (strip (text u)) DEFAULT_TAN w) as [[tan | e] Hr];
      rewrite Hr in H; discriminate H.
  - apply ask_taeg_returns in H.
    destruct H as (taeg & va & vd & vt & amount & duration & tan & p & dt
                   & _ & _ & _ & _ & _ & _ & _ & _ & Hdt & H).
    cbv zeta in H.
    destruct H as [(_ & Hd & Hl) | (Hr & _)]; [| discriminate Hr].
    split; [auto |]. rewrite Hd.
    split; [rewrite !lookup_insert_ne by discriminate; rewrite Hdt; eauto |].
    split; [intros k H1 H2; rewrite !lookup_insert_ne by congruence; reflexivity |].
    destruct Hl as [Hl | [f Hl]]; rewrite Hl, last_app; eexists;
      (split; [reflexivity |]); unfold error_reply; auto.
Qed.

(** *** Properties of the conversation *)

(** C2 (as amended).  An update that ends the conversation is a failed
    build or a failed delivery in [ask_name] or in [ask_taeg], reported by
    a failure notice.  The user data are not cleared: the document kind is
    still there and no collected field is dropped.  After it every update
    is ignored, world unchanged, except the start command, which clears
    the user data before any new flow begins. *)
Theorem error_path_keeps_session_until_start
    (E : env) (s : state) (w w' : world) (u : update) :
  handle_update E (Some s) w u = (None, w') ->
  (s = ASK_NAME \/ s = ASK_TAEG) /\
  is_Some (user_data w' !! "doc_type") /\
  (forall k, k <> "taeg"%string -> k <> "payment"%string ->
     user_data w' !! k = user_data w !! k) /\
  (exists e, last (log w') = Some e /\ error_reply e) /\
  forall u',
    if command_filter E "start" u'
    then exists w'', handle_update E None w' u' = (Some CHOOSING_DOC, w'') /\
                     user_data w'' = ∅
    else handle_update E None w' u' = (None, w').
Proof.
  intros H.
  assert (Hh : state_handler E s u w = (w', Ok END)).
  { unfold handle_update, check_update in H.
    destruct (state_filter s u).
    - destruct (state_handler E s u w) as [w1 [[s' |] | e]];
        try discriminate H. injection H as <-. reflexivity.
    - destruct (command_filter E "cancel" u); [discriminate H |].
      destruct (command_filter E "start" u); discriminate H. }
  destruct (handler_ends E s w w' u Hh) as (Hs & Hdt & Hk & Hl).
  repeat (split; [assumption |]).
  intros u'. apply ended_only_start.
Qed.

Lemma error_path_keeps_session_until_start_witness :
  let w := {| user_data := {[ "doc_type" := VStr "/garanzia" ]}; log := [] |} in
  let w' := snd (handle_update build_broken (Some ASK_NAME) w (message "Mario Rossi")) in
  (ASK_NAME = ASK_NAME \/ ASK_NAME = ASK_TAEG) /\
  is_Some (user_data w' !! "doc_type") /\
  (forall k, k <> "taeg"%string -> k <> "payment"%string ->
     user_data w' !! k = user_data w !! k) /\
  (exists e, last (log w') = Some e /\ error_reply e) /\
  forall u',
    if command_filter build_broken "start" u'
    then exists w'', handle_update build_broken None w' u' = (Some CHOOSING_DOC, w'') /\
                     user_data w'' = ∅
    else handle_update build_broken None w' u' = (None, w').
Proof.
  intros w w'.
  apply (error_path_keeps_session_until_start build_broken ASK_NAME w w'
           (message "Mario Rossi")).
  reflexivity.
Defined.

(** C2 as stated fails: after a failed build of the contract the
    conversation is ended and the name and the amount are still in the
    user data. *)
Lemma build_failure_leaves_session :
  exists w,
    run build_broken None empty_world
      [command "/start"; command "/contratto"; message "Mario Rossi";
       message "1000"; message "12"; message "7,86"; message "8,30"]
      = (None, w) /\
    last (log w) = Some (ReplyText build_error_text NoMarkup) /\
    user_data w !! "name" = Some (VStr "Mario Rossi") /\
    user_data w !! "amount" = Some (VFloat (Fin 1000)) /\
    user_data w <> ∅.
Proof.
  eexists. split; [vm_compute; reflexivity |].
  split; [reflexivity |]. split; [reflexivity |]. split; [reflexivity |].
  intros H. apply (f_equal (fun m => m !! "name")) in H. discriminate H.
Qed.

(** C3 fails on the code: the duration ["0"] is accepted and stored, and
    [ask_taeg] then raises [ZeroDivisionError] out of [monthly_payment]
    (for the default rate as for a zero rate), with no document built. *)
Lemma zero_duration_divides_by_zero :
  exists w1 w2,
    run all_fine None empty_world
      [command "/start"; command "/contratto"; message "Mario Rossi";
       message "1000"; message "0"; message "7,86"] = (Some ASK_TAEG, w1) /\
    user_data w1 !! "duration" = Some (VInt 0) /\
    ask_taeg all_fine (message "8,30") w1 = (w2, Raise ZeroDivisionError) /\
    handle_update all_fine (Some ASK_TAEG) w1 (message "8,30") = (Some ASK_TAEG, w2) /\
    builds (log w2) = [] /\
    monthly_payment (Fin 1000) 0 (Fin (393 # 50)) = Raise ZeroDivisionError /\
    monthly_payment (Fin 1000) 0 (Fin 0) = Raise ZeroDivisionError.
Proof. eexists _, _. repeat split; vm_compute; reflexivity. Qed.



(** C6.  In each of the six states, the cancel command and the start
    command lead to [CHOOSING_DOC] with the user data cleared: the world
    after them is the empty session with the log extended by the replies.
    A guarantee-letter flow started next sees its own document kind and
    nothing else. *)
Theorem cancel_and_restart_reset (E : env) (s : state) (w : world) (u : update) :
  command_filter E "cancel" u = true \/ command_filter E "start" u = true ->
  exists w',
    handle_update E (Some s) w u = (Some CHOOSING_DOC, w') /\
    w' = {| user_data := ∅;
            log := log w
                   ++ (if command_filter E "cancel" u
                       then [ReplyText "Operazione annullata." NoMarkup] else [])
                   ++ [welcome] |} /\
    forall v,
      text v = "/garanzia"%string ->
      handle_update E (Some CHOOSING_DOC) w' v =
        (Some ASK_NAME,
         {| user_data := {[ "doc_type" := VStr "/garanzia" ]};
            log := log w' ++ [ReplyText "Inserisci nome e cognome del cliente:"
                                ReplyKeyboardRemove] |}).
Proof.
  intros H.
  assert (Hf : state_filter s u = false).
  { destruct H as [H | H];
      [apply (command_not_menu E u "cancel") | apply (command_not_menu E u "start")];
      auto. }
  eexists. split; [| split; [reflexivity |]].
  - unfold handle_update, check_update. rewrite Hf.
    destruct (command_filter E "cancel" u) eqn:Hc.
    + unfold cancel, start, bind, reply_text, emit, clear, ret. cbn.
      rewrite <- app_assoc. reflexivity.
    + destruct H as [H | H]; [discriminate |]. rewrite H.
      unfold start, bind, reply_text, emit, clear, ret. cbn. reflexivity.
  - intros v Hv. unfold handle_update, check_update. cbn [state_filter].
    rewrite (menu_filter_garanzia v Hv). cbn [state_handler].
    unfold choose_doc, bind, set_item, reply_text, emit, ret. cbn.
    rewrite Hv, insert_empty. reflexivity.
Qed.

Lemma cancel_and_restart_reset_witness :
  exists w',
    handle_update all_fine (Some ASK_DURATION)
      {| user_data := {[ "name" := VStr "Mario Rossi" ]}; log := [] |}
      (command "/cancel") = (Some CHOOSING_DOC, w') /\
    w' = {| user_data := ∅;
            log := []
                   ++ (if command_filter all_fine "cancel" (command "/cancel")
                       then [ReplyText "Operazione annullata." NoMarkup] else [])
                   ++ [welcome] |} /\
    forall v,
      text v = "/garanzia"%string ->
      handle_update all_fine (Some CHOOSING_DOC) w' v =
        (Some ASK_NAME,
         {| user_data := {[ "doc_type" := VStr "/garanzia" ]};
            log := log w' ++ [ReplyText "Inserisci nome e cognome del cliente:"
                                ReplyKeyboardRemove] |}).
Proof.
  apply (cancel_and_restart_reset all_fine ASK_DURATION
           {| user_data := {[ "name" := VStr "Mario Rossi" ]}; log := [] |}
           (command "/cancel")).
  left. reflexivity.
Defined.

(** C7 (as amended).  From [CHOOSING_DOC], the message [/garanzia] followed
    by a name message calls a builder exactly once (the guarantee letter,
    for the stripped name) and sends none of the amount, duration or rate
    prompts; the conversation goes through [ASK_NAME] only, and is back in
    [CHOOSING_DOC] when the build and the delivery succeed.  When either
    fails the conversation is ended instead. *)
Theorem garanzia_shortcut (E : env) (w : world) (u v : update) :
  text u = "/garanzia"%string -> text_filter v = true ->
  let name := strip (text v) in
  let filename := "Garanzia_" +:+ name +:+ ".pdf" in
  exists w1 conv w2 evs,
    handle_update E (Some CHOOSING_DOC) w u = (Some ASK_NAME, w1) /\
    handle_update E (Some ASK_NAME) w1 v = (conv, w2) /\
    run E (Some CHOOSING_DOC) w [u; v] = (conv, w2) /\
    log w2 = log w ++ evs /\
    builds evs = [Garanzia name] /\
    (forall msg mk, In (ReplyText msg mk) evs -> ~ In msg collection_prompts) /\
    conv = (if build_raises E (Garanzia name)
               || send_raises E (Garanzia name) filename
            then None else Some CHOOSING_DOC).
Proof.
  intros Hu Hv name filename.
  set (w1 := {| user_data := <["doc_type" := VStr "/garanzia"]> (user_data w);
                log := log w ++ [ReplyText "Inserisci nome e cognome del cliente:"
                                   ReplyKeyboardRemove] |}).
  assert (H1 : handle_update E (Some CHOOSING_DOC) w u = (Some ASK_NAME, w1)).
  { unfold handle_update, check_update. cbn [state_filter].
    rewrite (menu_filter_garanzia u Hu). cbn [state_handler].
    unfold choose_doc, reply_text. unfold bind, set_item, emit, ret.
    cbn [user_data log]. rewrite Hu. reflexivity. }
  assert (Hdt : user_data w1 !! "doc_type" = Some (VStr "/garanzia"))
    by apply lookup_insert_eq.
  assert (H2 : exists conv w2 evs,
             handle_update E (Some ASK_NAME) w1 v = (conv, w2) /\
             log w2 = log w ++ evs /\ builds evs = [Garanzia name] /\
             (forall msg mk, In (ReplyText msg mk) evs -> ~ In msg collection_prompts) /\
             conv = (if build_raises E (Garanzia name)
                        || send_raises E (Garanzia name) filename
                     then None else Some CHOOSING_DOC)).
  { unfold handle_update, check_update. cbn [state_filter]. rewrite Hv.
    cbn [state_handler]. rewrite (ask_name_garanzia E v w1 Hdt).
    fold name. fold filename.
    destruct (build_raises E (Garanzia name));
      [| destruct (send_raises E (Garanzia name) filename)];
      (eexists _, _, _; split; [reflexivity |]; cbn [log orb w1];
       split; [rewrite <- app_assoc; reflexivity |];
       split; [reflexivity |]; split; [no_prompt | reflexivity]). }
  destruct H2 as (conv & w2 & evs & Hh & Hl & Hb & Hn & Hc).
  exists w1, conv, w2, evs. repeat split; try assumption.
  cbn [run]. rewrite H1, Hh. reflexivity.
Qed.

Lemma garanzia_shortcut_witness :
  let name := strip (text (message " Mario Rossi ")) in
  let filename := "Garanzia_" +:+ name +:+ ".pdf" in
  exists w1 conv w2 evs,
    handle_update all_fine (Some CHOOSING_DOC) empty_world (command "/garanzia")
      = (Some ASK_NAME, w1) /\
    handle_update all_fine (Some ASK_NAME) w1 (message " Mario Rossi ") = (conv, w2) /\
    run all_fine (Some CHOOSING_DOC) empty_world
      [command "/garanzia"; message " Mario Rossi "] = (conv, w2) /\
    log w2 = log empty_world ++ evs /\
    builds evs = [Garanzia name] /\
    (forall msg mk, In (ReplyText msg mk) evs -> ~ In msg collection_prompts) /\
    conv = (if build_raises all_fine (Garanzia name)
               || send_raises all_fine (Garanzia name) filename
            then None else Some CHOOSING_DOC).
Proof.
  apply (garanzia_shortcut all_fine empty_world (command "/garanzia")
           (message " Mario Rossi ")); reflexivity.
Defined.

(** C7 as stated fails when the builder raises: the one build is made,
    but the conversation is ended and not back in [CHOOSING_DOC]. *)
Lemma garanzia_build_failure_ends :
  exists w,
    run build_broken (Some CHOOSING_DOC) empty_world
      [command "/garanzia"; message "Mario Rossi"] = (None, w) /\
    builds (log w) = [Garanzia "Mario Rossi"] /\
    None <> Some CHOOSING_DOC.
Proof. eexists. repeat split. discriminate. Qed.

(** C8.  Two runs of [ask_taeg] that return, on sessions with the same
    amount, duration and TAN, hand their builders the same payment,
    whatever the two TAEG texts (and whatever else differs): the payment
    is what [monthly_payment] makes of the three shared fields. *)
Theorem payment_independent_of_taeg
    (E1 E2 : env) (u1 u2 : update) (w1 w2 w1' w2' : world) (r1 r2 : next) :
  user_data w1 !! "amount" = user_data w2 !! "amount" ->
  user_data w1 !! "duration" = user_data w2 !! "duration" ->
  user_data w1 !! "tan" = user_data w2 !! "tan" ->
  ask_taeg E1 u1 w1 = (w1', Ok r1) ->
  ask_taeg E2 u2 w2 = (w2', Ok r2) ->
  exists c1 c2 amount duration tan p,
    builds (log w1') = builds (log w1) ++ [c1] /\
    builds (log w2') = builds (log w2) ++ [c2] /\
    monthly_payment amount duration tan = Ok p /\
    payment_of c1 = Some (VFloat p) /\
    payment_of c2 = Some (VFloat p).
Proof.
  intros Ha Hd Ht H1 H2.
  apply ask_taeg_build in H1, H2.
  destruct H1 as (va & vd & vt & amount & duration & tan & p & c1
                  & Ha1 & Hfa1 & Hd1 & Hfd1 & Ht1 & Hft1 & Hp1 & Hb1 & Hc1).
  destruct H2 as (va' & vd' & vt' & amount' & duration' & tan' & p' & c2
                  & Ha2 & Hfa2 & Hd2 & Hfd2 & Ht2 & Hft2 & Hp2 & Hb2 & Hc2).
  assert (va' = va) as -> by congruence.
  assert (vd' = vd) as -> by congruence.
  assert (vt' = vt) as -> by congruence.
  assert (amount' = amount) as -> by congruence.
  assert (duration' = duration) as -> by congruence.
  assert (tan' = tan) as -> by congruence.
  assert (p' = p) as -> by congruence.
  exists c1, c2, amount, duration, tan, p. auto.
Qed.

Lemma payment_independent_of_taeg_witness :
  exists c1 c2 amount duration tan p,
    builds (log (fst (ask_taeg all_fine (message "8,30") session)))
      = builds (log session) ++ [c1] /\
    builds (log (fst (ask_taeg send_broken (message "12") session)))
      = builds (log session) ++ [c2] /\
    monthly_payment amount duration tan = Ok p /\
    payment_of c1 = Some (VFloat p) /\
    payment_of c2 = Some (VFloat p).
Proof.
  apply (payment_independent_of_taeg all_fine send_broken
           (message "8,30") (message "12") session session
           _ _ (To CHOOSING_DOC) END);
    try reflexivity; vm_compute; reflexivity.
Defined.




(** The whole contract flow with both rates left blank. *)
Example contratto_flow_defaults :
  exists w d,
    run all_fine None empty_world
      [command "/start"; command "/contratto"; message "Mario Rossi";
       message "1000"; message "12"; message " "; message " "]
      = (Some CHOOSING_DOC, w) /\
    user_data w = ∅ /\
    builds (log w) = [Contratto d] /\
    d !! "tan" = Some (VFloat DEFAULT_TAN) /\
    d !! "taeg" = Some (VFloat DEFAULT_TAEG) /\
    d !! "payment" = Some (VFloat (Fin (2173 # 25))).
Proof.
  eexists _, _.
  split; [vm_compute; reflexivity |]. split; [reflexivity |].
  split; [vm_compute; reflexivity |]. repeat split.
Qed.

End Conversation.

(** ** Handlers, one by one *)

Section Handlers.

Lemma rate_of_parse (txt : string) (d : pyfloat) (w : world) :
  rate_of txt d w = (w, parse_rate txt d).
Proof. unfold rate_of, parse_rate, ret, lift. destruct txt; reflexivity. Qed.

Lemma py_float_raises (s : string) (e : exn) : py_float s = Raise e -> e = ValueError.
Proof. unfold py_float. destruct (parse_literal s); congruence. Qed.

Lemma parse_rate_raises (txt : string) (d : pyfloat) (e : exn) :
  parse_rate txt d = Raise e -> e = ValueError.
Proof. unfold parse_rate. destruct txt; [discriminate |]. apply py_float_raises. Qed.

Lemma fdiv_raises (x y : pyfloat) (e : exn) : fdiv x y = Raise e -> e = ZeroDivisionError.
Proof.
  unfold fdiv. destruct y as [b | |]; try discriminate.
  destruct (Qzerob b); congruence.
Qed.

Lemma fpow_raises (x : pyfloat) (n : Z) (e : exn) :
  fpow x n = Raise e -> e = ZeroDivisionError.
Proof.
  unfold fpow. destruct (n =? 0)%Z; [discriminate |].
  destruct x as [a | s |]; try discriminate.
  - destruct (Qzerob a); [destruct (n <? 0)%Z |]; congruence.
  - destruct (0 <? n)%Z; discriminate.
Qed.

Lemma monthly_payment_raises (amount : pyfloat) (months : Z) (rate : pyfloat) (e : exn) :
  monthly_payment amount months rate = Raise e -> e = ZeroDivisionError.
Proof.
  unfold monthly_payment, rbind.
  repeat match goal with
         | |- context [match ?x with Ok _ => _ | Raise _ => _ end] =>
             let H := fresh in
             destruct x eqn:H;
             [| first [apply fdiv_raises in H | apply fpow_raises in H]; congruence]
         | |- context [if ?b then _ else _] => destruct b
         end; discriminate.
Qed.

Lemma float_of_raises (v : pyval) (e : exn) : float_of v = Raise e -> e = TypeError.
Proof. destruct v; simpl; congruence. Qed.

Lemma int_of_raises (v : pyval) (e : exn) : int_of v = Raise e -> e = TypeError.
Proof. destruct v; simpl; congruence. Qed.

Ltac raised :=
  intros [= <- <-]; subst; split; [reflexivity |]; right; left;
  eexists; split; [reflexivity |]; split; [reflexivity |]; eauto.

(** When [ask_taeg] raises, nothing has been sent or built. *)
Lemma ask_taeg_raises (E : env) (u : update) (w w' : world) (e : exn) :
  ask_taeg E u w = (w', Raise e) ->
  log w' = log w /\
  ((w' = w /\ e = ValueError /\ parse_rate (strip (text u)) DEFAULT_TAEG = Raise ValueError) \/
   (exists taeg,
      parse_rate (strip (text u)) DEFAULT_TAEG = Ok taeg /\
      user_data w' = <["taeg" := VFloat taeg]> (user_data w) /\
      (e = ZeroDivisionError \/ e = TypeError \/ exists k, e = KeyError k)) \/
   (exists taeg p,
      user_data w' = <["payment" := VFloat p]>
                       (<["taeg" := VFloat taeg]> (user_data w)) /\
      user_data w !! "doc_type" = None /\ e = KeyError "doc_type")).
Proof.
  unfold ask_taeg. unfold bind at 1. rewrite rate_of_parse.
  destruct (parse_rate (strip (text u)) DEFAULT_TAEG) as [taeg | e0] eqn:Hr.
  2:{ intros [= <- <-]. pose proof (parse_rate_raises _ _ _ Hr). subst e0.
      split; [reflexivity |]. left. auto. }
  unfold bind at 1. unfold set_item at 1. cbn [user_data log].
  unfold bind at 1. unfold bind at 1. unfold get_item at 1. cbn [user_data].
  rewrite lookup_insert_ne by discriminate.
  destruct (user_data w !! "amount") as [va |]; [| raised].
  unfold lift at 1. destruct (float_of va) as [amount | e1] eqn:Hfa;
    [| apply float_of_raises in Hfa; raised].
  unfold bind at 1. unfold bind at 1. unfold get_item at 1. cbn [user_data].
  rewrite lookup_insert_ne by discriminate.
  destruct (user_data w !! "duration") as [vd |]; [| raised].
  unfold lift at 1. destruct (int_of vd) as [duration | e1] eqn:Hfd;
    [| apply int_of_raises in Hfd; raised].
  unfold bind at 1. unfold bind at 1. unfold get_item at 1. cbn [user_data].
  rewrite lookup_insert_ne by discriminate.
  destruct (user_data w !! "tan") as [vt |]; [| raised].
  unfold lift at 1. destruct (float_of vt) as [tan | e1] eqn:Hft;
    [| apply float_of_raises in Hft; raised].
  unfold bind at 1. unfold lift at 1.
  destruct (monthly_payment amount duration tan) as [p | e1] eqn:Hp;
    [| apply monthly_payment_raises in Hp; raised].
  unfold bind at 1. unfold set_item at 1. cbn [user_data log].
  unfold bind at 1. unfold get_item at 1. cbn [user_data].
  rewrite !lookup_insert_ne by discriminate.
  destruct (user_data w !! "doc_type") as [dt |] eqn:Hdt.
  2:{ intros [= <- <-]. split; [reflexivity |]. right. right.
      exists taeg, p. auto. }
  unfold bind at 1. unfold try at 1.
  match goal with |- context [build_document E dt ?w0] =>
    destruct (build_document E dt w0) as [w2 [[buf filename] | e1]] end.
  - unfold bind at 1. unfold try at 1.
    destruct (reply_document E buf filename w2) as [w3 [[] | e1]];
      unfold reply_text, start, bind, emit, clear, ret; discriminate.
  - unfold reply_text, bind, emit, ret. discriminate.
Qed.

Lemma choose_doc_eval (u : update) (w : world) :
  choose_doc u w =
    ({| user_data := <["doc_type" := VStr (text u)]> (user_data w);
        log := log w ++ [ReplyText "Inserisci nome e cognome del cliente:"
                           ReplyKeyboardRemove] |},
     Ok (To ASK_NAME)).
Proof. reflexivity. Qed.

Lemma start_eval (w : world) :
  start w = ({| user_data := ∅; log := log w ++ [welcome] |}, Ok (To CHOOSING_DOC)).
Proof. reflexivity. Qed.

Lemma cancel_eval (w : world) :
  cancel w =
    ({| user_data := ∅;
        log := log w ++ [ReplyText "Operazione annullata." NoMarkup; welcome] |},
     Ok (To CHOOSING_DOC)).
Proof.
  unfold cancel, start, reply_text, welcome. unfold bind, emit, clear, ret.
  cbn [user_data log]. rewrite <- app_assoc. reflexivity.
Qed.

Lemma ask_amount_eval (u : update) (w : world) :
  ask_amount u w =
    match py_float (replace "," "." (replace "€" "" (text u))) with
    | Raise _ =>
        ({| user_data := user_data w;
            log := log w ++ [ReplyText "Importo non valido, riprova:" NoMarkup] |},
         Ok (To ASK_AMOUNT))
    | Ok amt =>
        ({| user_data := <["amount" := VFloat (py_round2 amt)]> (user_data w);
            log := log w ++ [ReplyText "Inserisci durata (mesi):" NoMarkup] |},
         Ok (To ASK_DURATION))
    end.
Proof.
  unfold ask_amount, bind, try, lift. destruct (py_float _); reflexivity.
Qed.

Lemma ask_duration_eval (u : update) (w : world) :
  ask_duration u w =
    match py_int (text u) with
    | Raise _ =>
        ({| user_data := user_data w;
            log := log w ++ [ReplyText "Durata non valida, riprova:" NoMarkup] |},
         Ok (To ASK_DURATION))
    | Ok mn =>
        ({| user_data := <["duration" := VInt mn]> (user_data w);
            log := log w ++ [ReplyText "Inserisci TAN (%), enter per 7.86%:" NoMarkup] |},
         Ok (To ASK_TAN))
    end.
Proof.
  unfold ask_duration, bind, try, lift. destruct (py_int _); reflexivity.
Qed.

Lemma ask_tan_eval (u : update) (w : world) :
  ask_tan u w =
    match parse_rate (strip (text u)) DEFAULT_TAN with
    | Raise e => (w, Raise e)
    | Ok tan =>
        ({| user_data := <["tan" := VFloat tan]> (user_data w);
            log := log w ++ [ReplyText "Inserisci TAEG (%), enter per 8.3%:" NoMarkup] |},
         Ok (To ASK_TAEG))
    end.
Proof.
  unfold ask_tan. unfold bind at 1. rewrite rate_of_parse.
  destruct (parse_rate _ _); reflexivity.
Qed.

(** What a handler adds to the builder calls of the log. *)
Lemma handler_builds (E : env) (s : state) (u : update) (w : world) :
  exists l,
    builds (log (fst (state_handler E s u w))) = builds (log w) ++ l /\
    (length l <= 1)%nat /\
    (l <> [] -> s = ASK_NAME \/ s = ASK_TAEG).
Proof.
  destruct s; cbn [state_handler].
  - exists []. rewrite choose_doc_eval. cbn [fst log]. rewrite builds_app.
    split; [reflexivity |]. split; [simpl; lia | congruence].
  - destruct (user_data w !! "doc_type") as [dt |] eqn:Hdt.
    + destruct (is_str "/garanzia" dt) eqn:Hg.
      * apply is_str_true in Hg. subst dt.
        rewrite (ask_name_garanzia E u w Hdt).
        exists [Garanzia (strip (text u))].
        destruct (build_raises E _); [| destruct (send_raises E _ _)];
          cbn [fst log]; rewrite builds_app; (split; [reflexivity |]);
          (split; [simpl; lia | auto]).
      * rewrite (ask_name_other E u w dt Hdt Hg). exists [].
        cbn [fst log]. rewrite builds_app.
        split; [reflexivity |]. split; [simpl; lia | congruence].
    + rewrite (ask_name_no_doc_type E u w Hdt). exists [].
      rewrite app_nil_r. split; [reflexivity |]. split; [simpl; lia | congruence].
  - exists []. rewrite ask_amount_eval. destruct (py_float _);
      cbn [fst log]; rewrite builds_app;
      (split; [reflexivity |]); (split; [simpl; lia | congruence]).
  - exists []. rewrite ask_duration_eval. destruct (py_int _);
      cbn [fst log]; rewrite builds_app;
      (split; [reflexivity |]); (split; [simpl; lia | congruence]).
  - exists []. rewrite ask_tan_eval. destruct (parse_rate _ _);
      cbn [fst log]; rewrite ?builds_app, ?app_nil_r;
      (split; [reflexivity |]); (split; [simpl; lia | congruence]).
  - destruct (ask_taeg E u w) as [w' [r | e]] eqn:Ht.
    + apply ask_taeg_build in Ht.
      destruct Ht as (_ & _ & _ & _ & _ & _ & _ & c & _ & _ & _ & _ & _ & _ & _ & Hb & _).
      exists [c]. cbn [fst]. split; [exact Hb |]. split; [simpl; lia | auto].
    + apply ask_taeg_raises in Ht. destruct Ht as [Hl _].
      exists []. cbn [fst]. rewrite Hl, app_nil_r.
      split; [reflexivity |]. split; [simpl; lia | congruence].
Qed.

(** X1.  One update makes at most one builder call, and only in [ASK_NAME]
    (the guarantee letter) or in [ASK_TAEG] (the contract and the card
    letter): the builder calls of the log grow by a list of at most one
    call, which is empty in every other state and when no conversation is
    running. *)
Theorem one_build_per_update (E : env) (conv : option state) (w : world) (u : update) :
  exists l,
    builds (log (snd (handle_update E conv w u))) = builds (log w) ++ l /\
    (length l <= 1)%nat /\
    (l <> [] -> conv = Some ASK_NAME \/ conv = Some ASK_TAEG).
Proof.
  assert (Hnone : exists l,
            builds (log w) = builds (log w) ++ l /\ (length l <= 1)%nat /\
            (l <> [] -> conv = Some ASK_NAME \/ conv = Some ASK_TAEG)).
  { exists []. rewrite app_nil_r. split; [reflexivity |].
    split; [simpl; lia | congruence]. }
  assert (Hstart : forall m : M next, m = start \/ m = cancel ->
            exists l,
              builds (log (snd (let '(w', r) := m w in
                                match r with
                                | Ok (To s) => (Some s, w')
                                | Ok END => (None, w')
                                | Raise _ => (conv, w')
                                end))) = builds (log w) ++ l /\
              (length l <= 1)%nat /\
              (l <> [] -> conv = Some ASK_NAME \/ conv = Some ASK_TAEG)).
  { intros m [-> | ->]; [rewrite start_eval | rewrite cancel_eval];
      exists []; cbn [snd log]; rewrite builds_app;
      (split; [reflexivity |]); (split; [simpl; lia | congruence]). }
  unfold handle_update, check_update.
  destruct conv as [s |].
  - destruct (state_filter s u).
    + destruct (handler_builds E s u w) as (l & Hl & Hlen & Hs).
      exists l. split; [| split; [exact Hlen |]].
      * destruct (state_handler E s u w) as [w' [[s' |] | e]]; exact Hl.
      * intros Hne. destruct (Hs Hne); subst; auto.
    + destruct (command_filter E "cancel" u); [apply Hstart; auto |].
      destruct (command_filter E "start" u); [apply Hstart; auto | exact Hnone].
  - destruct (command_filter E "start" u); [apply Hstart; auto | exact Hnone].
Qed.
End Handlers.

(** ** Sessions *)

Section Sessions.

Lemma menu_text_filter (u : update) : menu_filter u = true -> menu_text (text u).
Proof. intros H. exact H. Qed.

Lemma is_str_false (s t : string) : is_str s (VStr t) = false -> t <> s.
Proof. cbn. intros H ->. rewrite String.eqb_refl in H. discriminate. Qed.

(** With the three numbers and the document type in the user data,
    [ask_taeg] raises only for an unreadable rate or in the calculator. *)
Lemma ask_taeg_raises_collected (E : env) (u : update) (w w' : world) (e : exn)
    (t : string) (a : pyfloat) (m : Z) (tan : pyfloat) :
  user_data w !! "amount" = Some (VFloat a) ->
  user_data w !! "duration" = Some (VInt m) ->
  user_data w !! "tan" = Some (VFloat tan) ->
  user_data w !! "doc_type" = Some (VStr t) ->
  ask_taeg E u w = (w', Raise e) ->
  (w' = w /\ e = ValueError /\
   parse_rate (strip (text u)) DEFAULT_TAEG = Raise ValueError) \/
  (exists taeg,
     parse_rate (strip (text u)) DEFAULT_TAEG = Ok taeg /\
     w' = {| user_data := <["taeg" := VFloat taeg]> (user_data w); log := log w |} /\
     e = ZeroDivisionError /\ monthly_payment a m tan = Raise ZeroDivisionError).
Proof.
  intros Ha Hm Ht Hd.
  unfold ask_taeg. unfold bind at 1. rewrite rate_of_parse.
  destruct (parse_rate (strip (text u)) DEFAULT_TAEG) as [taeg | e0] eqn:Hr.
  2:{ intros [= <- <-]. pose proof (parse_rate_raises _ _ _ Hr). subst e0. auto. }
  unfold bind at 1. unfold set_item at 1. cbn [user_data log].
  unfold bind at 1. unfold bind at 1. unfold get_item at 1. cbn [user_data].
  rewrite lookup_insert_ne by discriminate. rewrite Ha.
  unfold lift at 1. cbn [float_of].
  unfold bind at 1. unfold bind at 1. unfold get_item at 1. cbn [user_data].
  rewrite lookup_insert_ne by discriminate. rewrite Hm.
  unfold lift at 1. cbn [int_of].
  unfold bind at 1. unfold bind at 1. unfold get_item at 1. cbn [user_data].
  rewrite lookup_insert_ne by discriminate. rewrite Ht.
  unfold lift at 1. cbn [float_of].
  unfold bind at 1. unfold lift at 1.
  destruct (monthly_payment a m tan) as [p | e1] eqn:Hp.
  2:{ pose proof (monthly_payment_raises _ _ _ _ Hp). subst e1.
      intros [= <- <-]. right. exists taeg. auto. }
  unfold bind at 1. unfold set_item at 1. cbn [user_data log].
  unfold bind at 1. unfold get_item at 1. cbn [user_data].
  rewrite !lookup_insert_ne by discriminate. rewrite Hd.
  unfold bind at 1. unfold try at 1.
  match goal with |- context [build_document E ?dt ?w0] =>
    destruct (build_document E dt w0) as [w2 [[buf filename] | e1]] end.
  - unfold bind at 1. unfold try at 1.
    destruct (reply_document E buf filename w2) as [w3 [[] | e1]];
      unfold reply_text, start, bind, emit, clear, ret; discriminate.
  - unfold reply_text, bind, emit, ret. discriminate.
Qed.

(** The effect of one handler on well-formed user data. *)
Lemma handler_well_formed (E : env) (s : state) (u : update) (w : world) :
  state_filter s u = true ->
  well_formed (Some s) (user_data w) -> Forall complete (builds (log w)) ->
  match state_handler E s u w with
  | (w', Ok (To s')) =>
      well_formed (Some s') (user_data w') /\ Forall complete (builds (log w'))
  | (w', Ok END) => Forall complete (builds (log w'))
  | (w', Raise e) =>
      well_formed (Some s) (user_data w') /\ Forall complete (builds (log w')) /\
      (e = ValueError \/ e = ZeroDivisionError)
  end.
Proof.
  intros Hf Hwf Hb.
  assert (Hlog : forall l, builds l = [] -> Forall complete (builds (log w ++ l))).
  { intros l Hl. rewrite builds_app, Hl, app_nil_r. exact Hb. }
  destruct s; cbn [state_handler well_formed] in *.
  - rewrite choose_doc_eval. cbn [user_data log]. rewrite Hwf.
    split; [| apply Hlog; reflexivity].
    exists (text u). split; [exact Hf | apply insert_empty].
  - destruct Hwf as (t & Ht & Hd).
    assert (Hdt : user_data w !! "doc_type" = Some (VStr t)) by (rewrite Hd; reflexivity).
    destruct (is_str "/garanzia" (VStr t)) eqn:Hg.
    + apply is_str_true in Hg. injection Hg as ->.
      rewrite (ask_name_garanzia E u w Hdt).
      assert (Hbl : forall l, builds l = [Garanzia (strip (text u))] ->
                Forall complete (builds (log w ++ l))).
      { intros l Hl. rewrite builds_app, Hl. apply Forall_app. split; [exact Hb |].
        repeat constructor. }
      destruct (build_raises E _); [| destruct (send_raises E _ _)];
        cbn [user_data log]; try (apply Hbl; reflexivity).
      split; [reflexivity | apply Hbl; reflexivity].
    + rewrite (ask_name_other E u w _ Hdt Hg). cbn [user_data log].
      split; [| apply Hlog; reflexivity].
      exists t, (strip (text u)). split; [exact Ht |].
      split; [apply (is_str_false _ _ Hg) | rewrite Hd; reflexivity].
  - destruct Hwf as (t & n & Ht & Hg & Hd).
    rewrite ask_amount_eval. destruct (py_float _) as [amt | e]; cbn [user_data log].
    + split; [| apply Hlog; reflexivity].
      exists t, n, amt. rewrite Hd. auto.
    + split; [| apply Hlog; reflexivity]. exists t, n. auto.
  - destruct Hwf as (t & n & a & Ht & Hg & Hd).
    rewrite ask_duration_eval. destruct (py_int _) as [mn | e]; cbn [user_data log].
    + split; [| apply Hlog; reflexivity].
      exists t, n, a, mn. rewrite Hd. auto.
    + split; [| apply Hlog; reflexivity]. exists t, n, a. auto.
  - destruct Hwf as (t & n & a & m & Ht & Hg & Hd).
    rewrite ask_tan_eval.
    destruct (parse_rate _ _) as [tan | e] eqn:Hr; cbn [user_data log].
    + split; [| apply Hlog; reflexivity].
      exists t, n, a, m, tan. rewrite Hd. auto.
    + apply parse_rate_raises in Hr. subst e.
      split; [exists t, n, a, m; auto |]. split; [exact Hb | auto].
  - destruct Hwf as (t & n & a & m & tan & Ht & Hg & Hd).
    assert (Hla : user_data w !! "amount" = Some (VFloat (py_round2 a)))
      by (destruct Hd as [-> | [? ->]]; reflexivity).
    assert (Hlm : user_data w !! "duration" = Some (VInt m))
      by (destruct Hd as [-> | [? ->]]; reflexivity).
    assert (Hlt : user_data w !! "tan" = Some (VFloat tan))
      by (destruct Hd as [-> | [? ->]]; reflexivity).
    assert (Hld : user_data w !! "doc_type" = Some (VStr t))
      by (destruct Hd as [-> | [? ->]]; reflexivity).
    assert (Hdoc : forall taeg p,
              <["payment" := VFloat p]> (<["taeg" := VFloat taeg]> (user_data w))
              = document_data t n (py_round2 a) m tan taeg p)
      by (intros; destruct Hd as [-> | [? ->]]; reflexivity).
    assert (Hins : forall taeg,
              <["taeg" := VFloat taeg]> (user_data w)
              = <["taeg" := VFloat taeg]> (session_data t n (py_round2 a) m tan))
      by (intros; destruct Hd as [-> | [? ->]]; reflexivity).
    destruct (ask_taeg E u w) as [w' [r | e]] eqn:Hrun.
    + apply ask_taeg_returns in Hrun.
      destruct Hrun as (taeg & va & vd & vt & amount & duration & tan' & p & dt
                        & _ & Ha & Hfa & Hm & Hfm & Htn & Hft & Hp & Hdt & H).
      rewrite Hla in Ha. injection Ha as <-. injection Hfa as <-.
      rewrite Hlm in Hm. injection Hm as <-. injection Hfm as <-.
      rewrite Hlt in Htn. injection Htn as <-. injection Hft as <-.
      rewrite Hld in Hdt. injection Hdt as <-.
      cbv zeta in H. rewrite Hdoc in H.
      assert (Hc : complete (if is_str "/contratto" (VStr t)
                             then Contratto (document_data t n (py_round2 a) m tan taeg p)
                             else Carta (document_data t n (py_round2 a) m tan taeg p))).
      { destruct (is_str "/contratto" (VStr t)) eqn:Hct.
        - apply is_str_true in Hct. injection Hct as ->.
          cbn [complete]. exists n, a, m, tan, taeg, p. auto.
        - apply is_str_false in Hct.
          cbn [complete]. exists t, n, a, m, tan, taeg, p. auto. }
      remember (if is_str "/contratto" (VStr t)
                then Contratto (document_data t n (py_round2 a) m tan taeg p)
                else Carta (document_data t n (py_round2 a) m tan taeg p)) as c.
      assert (Hbl : forall l l', l = log w ++ Build c :: l' -> builds l' = [] ->
                Forall complete (builds l)).
      { intros l l' -> Hl'. rewrite builds_app. apply Forall_app. split; [exact Hb |].
        change (builds (Build c :: l')) with (c :: builds l'). rewrite Hl'.
        repeat constructor. exact Hc. }
      destruct H as [(-> & _ & [Hl | [f Hl]]) | (-> & Hu & f & Hl)].
      * eapply Hbl; [exact Hl | reflexivity].
      * eapply Hbl; [exact Hl | reflexivity].
      * split; [exact Hu |]. eapply Hbl; [exact Hl | reflexivity].
    + apply (ask_taeg_raises_collected E u w w' e t (py_round2 a) m tan Hla Hlm Hlt Hld)
        in Hrun.
      destruct Hrun as [(-> & -> & _) | (taeg & Hr & -> & -> & _)]; cbn [user_data log].
      * split; [exists t, n, a, m, tan; auto |]. split; [exact Hb | auto].
      * rewrite Hins.
        split; [exists t, n, a, m, tan; eauto |]. split; [exact Hb | auto].
Qed.

(** One update keeps the user data well formed and the builder calls
    complete. *)
Lemma handle_update_well_formed (E : env) (conv : option state) (w : world) (u : update) :
  well_formed conv (user_data w) -> Forall complete (builds (log w)) ->
  well_formed (fst (handle_update E conv w u)) (user_data (snd (handle_update E conv w u)))
  /\ Forall complete (builds (log (snd (handle_update E conv w u)))).
Proof.
  intros Hwf Hb.
  assert (Hstart : forall m : M next, m = start \/ m = cancel ->
            forall conv0,
            well_formed
              (fst (let '(w', r) := m w in
                    match r with
                    | Ok (To s) => (Some s, w')
                    | Ok END => (None, w')
                    | Raise _ => (conv0, w')
                    end))
              (user_data (snd (let '(w', r) := m w in
                    match r with
                    | Ok (To s) => (Some s, w')
                    | Ok END => (None, w')
                    | Raise _ => (conv0, w')
                    end)))
            /\ Forall complete (builds (log (snd (let '(w', r) := m w in
                    match r with
                    | Ok (To s) => (Some s, w')
                    | Ok END => (None, w')
                    | Raise _ => (conv0, w')
                    end))))).
  { intros m [-> | ->] conv0; [rewrite start_eval | rewrite cancel_eval];
      cbn [fst snd user_data log well_formed]; rewrite builds_app, app_nil_r; auto. }
  unfold handle_update, check_update.
  destruct conv as [s |].
  - destruct (state_filter s u) eqn:Hf.
    + pose proof (handler_well_formed E s u w Hf Hwf Hb) as H.
      destruct (state_handler E s u w) as [w' [[s' |] | e]]; cbn [fst snd].
      * exact H.
      * split; [exact I | exact H].
      * destruct H as (H1 & H2 & _). auto.
    + destruct (command_filter E "cancel" u); [apply Hstart; auto |].
      destruct (command_filter E "start" u); [apply Hstart; auto |].
      cbn [fst snd]. auto.
  - destruct (command_filter E "start" u); [apply Hstart; auto |].
    cbn [fst snd]. auto.
Qed.

Lemma run_well_formed (E : env) (us : list update) (conv : option state) (w : world) :
  well_formed conv (user_data w) -> Forall complete (builds (log w)) ->
  well_formed (fst (run E conv w us)) (user_data (snd (run E conv w us)))
  /\ Forall complete (builds (log (snd (run E conv w us)))).
Proof.
  revert conv w. induction us as [| u us IH]; intros conv w Hwf Hb; cbn [run].
  - auto.
  - destruct (handle_update_well_formed E conv w u Hwf Hb) as [H1 H2].
    destruct (handle_update E conv w u) as [conv' w']. apply IH; assumption.
Qed.

(** Sessions start with no conversation, whatever the user data. *)
Lemma session_well_formed (E : env) (d : gmap string pyval) (us : list update) :
  let r := run E None {| user_data := d; log := [] |} us in
  well_formed (fst r) (user_data (snd r)) /\ Forall complete (builds (log (snd r))).
Proof. apply run_well_formed; [exact I | constructor]. Qed.

End Sessions.

(** ** Repayment *)

Section Repayment.
Local Open Scope Q_scope.

(** [round2] is within half a hundredth of its argument. *)
Lemma round2_close (x : Q) : x - (1 # 200) <= round2 x <= x + (1 # 200).
Proof.
  destruct (round2_half_even x) as (n & Hy & Hb & _).
  rewrite Hy. unfold Qdiv. change (/ 100) with (1 # 100). lra.
Qed.

Lemma round_half_even_comp (x y : Q) : x == y -> round_half_even x = round_half_even y.
Proof.
  intros E. unfold round_half_even.
  rewrite (Qfloor_comp x y E).
  assert (C : Qcompare (x - inject_Z (Qfloor y)) (1 # 2)
              = Qcompare (y - inject_Z (Qfloor y)) (1 # 2)).
  { apply Qcompare_comp; [rewrite E |]; reflexivity. }
  rewrite C. reflexivity.
Qed.

Lemma round_half_even_mono (x y : Q) :
  x <= y -> (round_half_even x <= round_half_even y)%Z.
Proof.
  intros H.
  destruct (round_half_even_nearest x) as [[Hx1 Hx2] _].
  destruct (round_half_even_nearest y) as [[Hy1 Hy2] _].
  destruct (Z_le_gt_dec (round_half_even x) (round_half_even y)) as [L | G]; [exact L |].
  exfalso.
  assert (G' : inject_Z (round_half_even y) + 1 <= inject_Z (round_half_even x)).
  { rewrite <- inject_Z_succ. rewrite <- Zle_Qle. lia. }
  assert (E : x == y) by lra.
  apply round_half_even_comp in E. lia.
Qed.

Lemma round2_mono (x y : Q) : x <= y -> round2 x <= round2 y.
Proof.
  intros H. unfold round2. rewrite !Qred_correct.
  assert (round_half_even (x * 100) <= round_half_even (y * 100))%Z
    by (apply round_half_even_mono; lra).
  unfold Qle. simpl. lia.
Qed.

Lemma round_half_even_nonpos (x : Q) : x <= 0 -> (round_half_even x <= 0)%Z.
Proof.
  intros H. change 0%Z with (round_half_even 0). now apply round_half_even_mono.
Qed.

Lemma round2_nonpos (x : Q) : x <= 0 -> round2 x <= 0.
Proof.
  intros H. apply Qle_trans with (round2 0); [now apply round2_mono |].
  vm_compute. discriminate.
Qed.

(** The monthly rate of an annual rate in percent. *)
Lemma monthly_rate_nonneg (rate : Q) : 0 <= rate -> 0 <= rate / 100 / 12.
Proof. intros H. repeat (apply Qle_shift_div_l; [reflexivity |]). lra. Qed.

(** The two branches of [monthly_payment] on finite operands. *)
Lemma monthly_payment_zero_rate (a : Q) (m : Z) (rate : Q) :
  rate / 100 / 12 == 0 -> m <> 0%Z ->
  monthly_payment (Fin a) m (Fin rate) = Ok (Fin (round2 (a / inject_Z m))).
Proof.
  intros Hr Hm. unfold monthly_payment. cbn [fdiv rbind feq0].
  change (Qzerob 100) with false. change (Qzerob 12) with false.
  cbn [rbind fdiv feq0].
  apply Qzerob_true in Hr. rewrite Hr.
  unfold of_int. cbn [fdiv].
  assert (Hz : Qzerob (inject_Z m) = false).
  { apply Qzerob_false. intros E. unfold Qeq in E. simpl in E. lia. }
  rewrite Hz. reflexivity.
Qed.

Lemma monthly_payment_formula (a : Q) (m : Z) (rate : Q) :
  let r := rate / 100 / 12 in
  ~ r == 0 -> m <> 0%Z -> ~ 1 + r == 0 -> ~ (1 + r) ^ m == 1 ->
  monthly_payment (Fin a) m (Fin rate)
  = Ok (Fin (round2 (a * r * (1 + r) ^ m / ((1 + r) ^ m + - (1))))).
Proof.
  intros r Hr Hm H1 Hp. unfold monthly_payment. cbn [fdiv rbind feq0].
  change (Qzerob 100) with false. change (Qzerob 12) with false.
  cbn [rbind fdiv feq0]. fold r.
  apply Qzerob_false in Hr. rewrite Hr.
  unfold of_int, fpow. cbn [fadd]. change (inject_Z 1) with 1.
  replace (m =? 0)%Z with false by (symmetry; apply Z.eqb_neq; lia).
  apply Qzerob_false in H1. rewrite H1.
  cbn [rbind fmul fsub fadd fopp fdiv].
  assert (Hd : Qzerob ((1 + r) ^ m + - (1)) = false).
  { apply Qzerob_false. intros E. apply Hp. lra. }
  rewrite Hd. reflexivity.
Qed.

(** A base above one has a power of a negative exponent below one. *)
Lemma Qpower_neg_lt_1 (x : Q) (m : Z) : 1 < x -> (m < 0)%Z -> 0 < x ^ m < 1.
Proof.
  intros Hx Hm.
  assert (Hpos : 1 < x ^ (- m)) by (apply Qpower_1_lt; [exact Hx | lia]).
  assert (E : x ^ m == / x ^ (- m)).
  { rewrite <- (Z.opp_involutive m) at 1. apply Qpower_opp. }
  rewrite E. split.
  - apply Qinv_lt_0_compat. lra.
  - apply Qlt_shift_inv_r; lra.
Qed.

(** Bernoulli's inequality, both ways round. *)
Lemma power_linear_bound (r : Q) (n : nat) :
  0 <= r ->
  1 + inject_Z (Z.of_nat n) * r <= (1 + r) ^ Z.of_nat n /\
  (1 + r) ^ Z.of_nat n * (1 - inject_Z (Z.of_nat n) * r) <= 1.
Proof.
  intros Hr. induction n as [| n [IH1 IH2]].
  - change (Z.of_nat 0) with 0%Z. change (inject_Z 0) with 0.
    change ((1 + r) ^ 0) with 1. split; lra.
  - rewrite Nat2Z.inj_succ, <- Z.add_1_r.
    rewrite Qpower_plus by lra.
    rewrite inject_Z_plus. change (inject_Z 1) with 1.
    change ((1 + r) ^ 1) with (1 + r).
    set (P := (1 + r) ^ Z.of_nat n) in *. set (k := inject_Z (Z.of_nat n)) in *.
    assert (Hk : 0 <= k).
    { unfold k. change 0 with (inject_Z 0). rewrite <- Zle_Qle. lia. }
    assert (HP : 0 <= P) by (apply Qpower_pos; lra).
    assert (Hrr : 0 <= r * r) by (apply Qmult_le_0_compat; assumption).
    split.
    + assert (H1 : 0 <= (P - (1 + k * r)) * (1 + r))
        by (apply Qmult_le_0_compat; lra).
      assert (H2 : 0 <= k * (r * r)) by (apply Qmult_le_0_compat; assumption).
      assert (E : P * (1 + r) - (1 + (k + 1) * r)
                  == (P - (1 + k * r)) * (1 + r) + k * (r * r)) by ring.
      lra.
    + assert (H1 : 0 <= P * ((k + 1) * (r * r))).
      { apply Qmult_le_0_compat; [assumption |].
        apply Qmult_le_0_compat; [lra | assumption]. }
      assert (E : P * (1 + r) * (1 - (k + 1) * r)
                  == P * (1 - k * r) - P * ((k + 1) * (r * r))) by ring.
      lra.
Qed.

Lemma power_bounds (r : Q) (m : Z) :
  0 <= r -> (0 < m)%Z ->
  1 + inject_Z m * r <= (1 + r) ^ m /\ (1 + r) ^ m * (1 - inject_Z m * r) <= 1.
Proof.
  intros Hr Hm. rewrite <- (Z2Nat.id m) by lia. now apply power_linear_bound.
Qed.

Lemma Qdiv_nonneg (x y : Q) : 0 <= x -> 0 < y -> 0 <= x / y.
Proof. intros Hx Hy. apply Qle_shift_div_l; [exact Hy | lra]. Qed.

(** The annuity lies between the straight-line instalment and that
    instalment plus a month's interest on the whole principal. *)
Lemma annuity_bounds (a r : Q) (m : Z) :
  0 <= a -> 0 < r -> (0 < m)%Z ->
  a / inject_Z m <= a * r * (1 + r) ^ m / ((1 + r) ^ m + - (1))
    <= a / inject_Z m + a * r.
Proof.
  intros Ha Hr Hm.
  assert (HP : 1 < (1 + r) ^ m) by (apply Qpower_1_lt; [lra | exact Hm]).
  destruct (power_bounds r m) as [B1 B2]; [lra | exact Hm |].
  set (P := (1 + r) ^ m) in *. set (M := inject_Z m) in *.
  assert (HM : 0 < M).
  { unfold M. change 0 with (inject_Z 0). rewrite <- Zlt_Qlt. exact Hm. }
  assert (HMD : 0 < M * (P + - (1))).
  { apply Qmult_lt_0_compat; lra. }
  split.
  - assert (E : a * r * P / (P + - (1)) - a / M
                == a * (M * r * P - (P - 1)) / (M * (P + - (1)))).
    { field; try split; intros H; lra. }
    assert (N : 0 <= a * (M * r * P - (P - 1))).
    { apply Qmult_le_0_compat; [exact Ha |].
      assert (E' : P * (1 - M * r) == P - M * r * P) by ring. lra. }
    pose proof (Qdiv_nonneg _ _ N HMD). lra.
  - assert (E : a / M + a * r - a * r * P / (P + - (1))
                == a * (P - 1 - M * r) / (M * (P + - (1)))).
    { field; try split; intros H; lra. }
    assert (N : 0 <= a * (P - 1 - M * r)).
    { apply Qmult_le_0_compat; [exact Ha | lra]. }
    pose proof (Qdiv_nonneg _ _ N HMD). lra.
Qed.





Lemma zero_months_raises (amount rate : pyfloat) :
  monthly_payment amount 0 rate = Raise ZeroDivisionError.
Proof.
  unfold monthly_payment.
  destruct rate as [q | s |]; cbn [fdiv rbind];
    change (Qzerob 100) with false; change (Qzerob 12) with false;
    cbn [fdiv rbind feq0].
  - destruct (Qzerob (q / 100 / 12)).
    + destruct amount; reflexivity.
    + destruct amount; reflexivity.
  - destruct amount; destruct s; reflexivity.
  - destruct amount; reflexivity.
Qed.

(** X9.  A duration of zero makes [monthly_payment] raise
    [ZeroDivisionError], whatever the amount and the rate, infinities and
    NaN included. *)
Theorem zero_months_always_raises (amount rate : pyfloat) :
  monthly_payment amount 0 rate = Raise ZeroDivisionError.
Proof. apply zero_months_raises. Qed.



End Repayment.

(** ** What the documents show *)

Section Display.
Local Open Scope Q_scope.

(** The bound of [money]: 28 digits of hundredths, less the half cent that
    rounds up. *)
Lemma quantize_cents_bound (mag : Q) :
  0 <= mag ->
  ((quantize_cents mag <? max_coefficient)%N = true
   <-> mag < inject_Z (10 ^ 26) - (1 # 200)).
Proof.
  intros H. unfold quantize_cents, round_half_up.
  pose proof (Qfloor_le (mag * 100 + (1 # 2))) as Hlo.
  pose proof (Qlt_floor (mag * 100 + (1 # 2))) as Hhi.
  rewrite inject_Z_succ in Hhi.
  assert (H0 : (0 <= Qfloor (mag * 100 + (1 # 2)))%Z).
  { change 0%Z with (Qfloor 0). apply Qfloor_resp_le. lra. }
  set (f := Qfloor (mag * 100 + (1 # 2))) in *.
  rewrite N.ltb_lt.
  assert (B : (Z.to_N f < max_coefficient)%N <-> (f < 10 ^ 28)%Z).
  { unfold max_coefficient. rewrite <- (Z2N.id f) at 2 by exact H0.
    rewrite N2Z.inj_lt, N2Z.inj_pow.
    change (Z.of_N 10) with 10%Z. change (Z.of_N 28) with 28%Z. reflexivity. }
  rewrite B.
  assert (E : inject_Z (10 ^ 26) * 100 == inject_Z (10 ^ 28)).
  { vm_compute. reflexivity. }
  split; intros L.
  - assert (L' : inject_Z f + 1 <= inject_Z (10 ^ 28)).
    { rewrite <- inject_Z_succ, <- Zle_Qle. lia. }
    lra.
  - rewrite Zlt_Qlt. lra.
Qed.

(** X13.  [money] of a finite value returns when the magnitude is below
    [10 ** 26 - 0.005] and raises [InvalidOperation] from there on. *)
Theorem money_returns_below_bound (q : Q) :
  match money (Fin q) with
  | Ok _ => Qabs q < inject_Z (10 ^ 26) - (1 # 200)
  | Raise e => e = InvalidOperation /\ inject_Z (10 ^ 26) - (1 # 200) <= Qabs q
  end.
Proof.
  unfold money, money_of_decimal. cbn [Decimal_of_float quantize_to_string].
  pose proof (quantize_cents_bound (Qabs q) (Qabs_nonneg q)) as B.
  destruct (quantize_cents (Qabs q) <? max_coefficient)%N; cbn [rbind].
  - apply B. reflexivity.
  - split; [reflexivity |]. apply Qnot_lt_le. intros L. apply B in L. discriminate.
Qed.

(** The magnitude of a number of hundredths. *)
Lemma Qabs_cents (k : Z) (q : Q) :
  q == inject_Z k / 100 -> Qabs q == inject_Z (Z.of_N (Z.abs_N k)) / 100.
Proof.
  intros E. rewrite E. rewrite N2Z.inj_abs_N.
  unfold Qdiv. rewrite Qabs_Qmult.
  assert (A : Qabs (inject_Z k) == inject_Z (Z.abs k)).
  { unfold Qabs, inject_Z. reflexivity. }
  rewrite A. reflexivity.
Qed.

Lemma round2_cents (x : Q) : round2 x == inject_Z (round_half_even (x * 100)) / 100.
Proof. unfold round2. rewrite Qred_correct. unfold Qeq, Qdiv. simpl. lia. Qed.

(** What [money] returns for a number of hundredths reads back as that
    number. *)
Lemma money_cents_reads_back (k : Z) (q : Q) (s : string) :
  q == inject_Z k / 100 -> money (Fin q) = Ok s ->
  exists payload q',
    s = ("€ " ++ payload)%string /\ py_float payload = Ok (Fin q') /\ q' == q.
Proof.
  intros E.
  unfold money at 1. unfold money_of_decimal at 1.
  cbn [Decimal_of_float quantize_to_string].
  pose proof (Qabs_cents k q E) as HA.
  rewrite (quantize_cents_exact (Z.abs_N k) (Qabs q) HA).
  destruct (Z.abs_N k <? max_coefficient)%N; [| discriminate].
  cbn [rbind]. intros [= <-].
  set (n := Z.abs_N k) in *.
  pose proof (magnitude_cents n) as Hmag.
  set (mag := magnitude (N.to_uint (n / 100)) (two_digits (n mod 100)) 0) in *.
  exists (cents_to_string (Qnegb q) n).
  exists (if Qnegb q then - mag else mag).
  split; [reflexivity |]. split.
  - unfold py_float. rewrite parse_cents. reflexivity.
  - destruct (Qnegb q) eqn:Hs.
    + apply Qnegb_true in Hs. rewrite Hmag, <- HA, Qabs_neg by lra. ring.
    + apply Qnegb_false in Hs. rewrite Hmag, <- HA, Qabs_pos by lra. reflexivity.
Qed.

Lemma py_round2_shown_exactly (x : pyfloat) : shown_exactly (py_round2 x).
Proof.
  intros q s Hq Hm. rewrite Hq in Hm.
  destruct x as [x | |]; try discriminate. cbn [py_round2] in Hq.
  injection Hq as <-.
  apply (money_cents_reads_back (round_half_even (x * 100))); [apply round2_cents | exact Hm].
Qed.

(** What [monthly_payment] returns is a value [round(..., 2)] returned. *)
Lemma monthly_payment_rounded (amount : pyfloat) (months : Z) (rate p : pyfloat) :
  monthly_payment amount months rate = Ok p -> exists x, p = py_round2 x.
Proof.
  unfold monthly_payment.
  destruct (fdiv rate (Fin 100)) as [r100 |]; [| discriminate]. cbn [rbind].
  destruct (fdiv r100 (Fin 12)) as [r |]; [| discriminate]. cbn [rbind].
  destruct (feq0 r).
  - destruct (fdiv amount (of_int months)) as [y |]; [| discriminate].
    cbn [rbind]. intros [= <-]. eauto.
  - destruct (fpow (fadd (of_int 1) r) months) as [pw |]; [| discriminate].
    cbn [rbind].
    destruct (fdiv _ _) as [y |]; [| discriminate].
    cbn [rbind]. intros [= <-]. eauto.
Qed.





End Display.

(** ** Page decorations *)

Section Decorations.
Import Draw.
Local Open Scope Q_scope.



(** X17.  The logo of the contract, when its file exists and can be read: one
    image, 3.2 cm / 1.5 high and of the proportions of its pixels (square
    when the pixel height is zero), whose right edge is 2 cm from the
    right edge of the page and whose top edge is 1.2 cm below the top. *)
Theorem contratto_logo_placement (I : Page.images) (iw ih : Z) :
  Page.path_exists I Page.LOGO_PATH = true ->
  Page.reader I Page.LOGO_PATH = Some (iw, ih) ->
  exists x y w h,
    Page.draw_logo_contratto I = [Page.DrawImage Page.LOGO_PATH x y w h] /\
    h == (32 # 10) * cm / (3 # 2) /\
    x + w == A4_width - 2 * cm /\
    y + h == Page.A4_height - (12 # 10) * cm /\
    (ih <> 0%Z -> w * inject_Z ih == h * inject_Z iw) /\
    (ih = 0%Z -> w == h).
Proof.
  intros He Hr. unfold Page.draw_logo_contratto. rewrite He, Hr.
  eexists _, _, _, _. split; [reflexivity |].
  split; [reflexivity |]. split; [ring |]. split; [ring |]. split.
  - intros Hz. pose proof Hz as Hz'. apply Z.eqb_neq in Hz'. rewrite Hz'. field.
    intros E. apply Hz. unfold Qeq in E. simpl in E. lia.
  - intros ->. cbn [Z.eqb]. ring.
Qed.

Lemma contratto_logo_placement_witness :
  exists x y w h,
    Page.draw_logo_contratto
      {| Page.path_exists := fun _ => true; Page.reader := fun _ => Some (300, 200)%Z |}
    = [Page.DrawImage Page.LOGO_PATH x y w h] /\
    h == (32 # 10) * cm / (3 # 2) /\
    x + w == A4_width - 2 * cm /\
    y + h == Page.A4_height - (12 # 10) * cm /\
    (200%Z <> 0%Z -> w * inject_Z 200 == h * inject_Z 300) /\
    (200%Z = 0%Z -> w == h).
Proof.
  apply (contratto_logo_placement
           {| Page.path_exists := fun _ => true;
              Page.reader := fun _ => Some (300, 200)%Z |} 300 200);
    reflexivity.
Defined.

(** X18.  The page callback of the two letters draws the border first and
    whatever becomes of the logo: a rectangle 1 cm inside the page on its
    four sides.  The logo, when its file exists and can be read, is one
    image of 5.5 cm by 3.2 cm, whatever its pixels, centred between the
    left and right edges, with its top edge 2 cm below the top of the
    page; it lies inside the border.  Otherwise nothing but the border is
    drawn. *)
Theorem letter_page_decoration (I : Page.images) :
  exists x y w h logo,
    Page.border_and_logo I
      = [Page.SaveState; Page.SetStrokeColor "#0c3270"; Page.SetLineWidth 5;
         Page.Rect x y w h; Page.RestoreState] ++ logo /\
    x == cm /\ y == cm /\ x + w == A4_width - cm /\ y + h == Page.A4_height - cm /\
    match Page.path_exists I Page.LOGO_PATH, Page.reader I Page.LOGO_PATH with
    | true, Some _ =>
        exists lx ly,
          logo = [Page.DrawImage Page.LOGO_PATH lx ly ((55 # 10) * cm) ((32 # 10) * cm)] /\
          lx + (55 # 10) * cm / 2 == A4_width / 2 /\
          ly + (32 # 10) * cm == Page.A4_height - 2 * cm /\
          x < lx /\ lx + (55 # 10) * cm < x + w /\
          y < ly /\ ly + (32 # 10) * cm < y + h
    | _, _ => logo = []
    end.
Proof.
  unfold Page.border_and_logo, Page._border, Page.draw_logo.
  eexists _, _, _, _, _. split; [reflexivity |].
  split; [ring |]. split; [ring |]. split; [ring |]. split; [ring |].
  destruct (Page.path_exists I Page.LOGO_PATH); [| reflexivity].
  destruct (Page.reader I Page.LOGO_PATH); [| reflexivity].
  eexists _, _. split; [reflexivity |].
  split; [field |]. split; [ring |].
  repeat split; vm_compute; reflexivity.
Qed.

End Decorations.

(** ** Flows *)

Section Flows.

(** [ask_taeg] on user data that hold the name, the three numbers and the
    document type, for a rate that reads and a payment that is computed. *)
Lemma ask_taeg_eval (E : env) (u : update) (w : world)
    (t n : string) (a : pyfloat) (m : Z) (tan taeg p : pyfloat) :
  user_data w !! "doc_type" = Some (VStr t) ->
  user_data w !! "name" = Some (VStr n) ->
  user_data w !! "amount" = Some (VFloat a) ->
  user_data w !! "duration" = Some (VInt m) ->
  user_data w !! "tan" = Some (VFloat tan) ->
  parse_rate (strip (text u)) DEFAULT_TAEG = Ok taeg ->
  monthly_payment a m tan = Ok p ->
  let d := <["payment" := VFloat p]> (<["taeg" := VFloat taeg]> (user_data w)) in
  let call := loan_call t d in
  let filename := loan_filename t n in
  ask_taeg E u w =
    if build_raises E call then
      ({| user_data := d;
          log := log w ++ [Build call; ReplyText build_error_text NoMarkup] |},
       Ok END)
    else if send_raises E call filename then
      ({| user_data := d;
          log := log w ++ [Build call; ReplyDocument call filename;
                           ReplyText send_error_text NoMarkup] |},
       Ok END)
    else
      ({| user_data := ∅;
          log := log w ++ [Build call; ReplyDocument call filename; welcome] |},
       Ok (To CHOOSING_DOC)).
Proof.
  intros Hd Hn Ha Hm Ht Hr Hp d call filename.
  unfold ask_taeg. unfold bind at 1. rewrite rate_of_parse, Hr.
  unfold bind at 1. unfold set_item at 1. cbn [user_data log].
  unfold bind at 1. unfold bind at 1. unfold get_item at 1. cbn [user_data].
  rewrite lookup_insert_ne by discriminate. rewrite Ha.
  unfold lift at 1. cbn [float_of].
  unfold bind at 1. unfold bind at 1. unfold get_item at 1. cbn [user_data].
  rewrite lookup_insert_ne by discriminate. rewrite Hm.
  unfold lift at 1. cbn [int_of].
  unfold bind at 1. unfold bind at 1. unfold get_item at 1. cbn [user_data].
  rewrite lookup_insert_ne by discriminate. rewrite Ht.
  unfold lift at 1. cbn [float_of].
  unfold bind at 1. unfold lift at 1. rewrite Hp.
  unfold bind at 1. unfold set_item at 1. cbn [user_data log].
  unfold bind at 1. unfold get_item at 1. cbn [user_data].
  rewrite !lookup_insert_ne by discriminate. rewrite Hd.
  fold d.
  assert (Hn' : d !! "name" = Some (VStr n)).
  { unfold d. rewrite !lookup_insert_ne by discriminate. exact Hn. }
  unfold call, filename, loan_call, loan_filename, build_document.
  cbn [is_str].
  destruct (String.eqb t "/contratto");
    match goal with |- context [build_raises E ?c] =>
      destruct (build_raises E c) eqn:Hb end;
    try match goal with |- context [send_raises E ?c ?f] =>
      destruct (send_raises E c f) eqn:Hs end;
    unfold build, reply_document, reply_text, start, welcome;
    unfold reply_text; unfold bind, try, emit, clear, ret, raise, get_item, lift;
    cbn [user_data log]; rewrite ?Hb; cbn [user_data log]; rewrite ?Hn';
    cbn [str_of user_data log]; rewrite ?Hs; cbn [user_data log];
    rewrite <- ?app_assoc; reflexivity.
Qed.

(** A handler run by its state's filter. *)
Lemma handle_update_state (E : env) (s : state) (w : world) (u : update) :
  state_filter s u = true ->
  handle_update E (Some s) w u =
    match state_handler E s u w with
    | (w', Ok (To s')) => (Some s', w')
    | (w', Ok END) => (None, w')
    | (w', Raise _) => (Some s, w')
    end.
Proof. intros H. unfold handle_update, check_update. rewrite H. reflexivity. Qed.

(** X6.  A whole loan flow (contract or card letter).  From [CHOOSING_DOC]
    with empty user data, a menu word other than [/garanzia] followed by
    five text messages (a name, an amount and a duration that parse, two
    rates that read) for which the payment is computed make exactly one
    builder call, for the document of the menu word, with the data
    collected and the payment; the document is sent under the name of the
    client unless the build fails; the conversation is back in
    [CHOOSING_DOC] with empty user data when build and delivery succeed,
    and is ended with the data kept when one of them fails. *)
Theorem loan_flow (E : env) (l : list event) (u0 un ua ud ut ug : update)
    (a : pyfloat) (m : Z) (tan taeg p : pyfloat) :
  menu_filter u0 = true -> text u0 <> "/garanzia"%string ->
  text_filter un = true -> text_filter ua = true -> text_filter ud = true ->
  text_filter ut = true -> text_filter ug = true ->
  py_float (replace "," "." (replace "€" "" (text ua))) = Ok a ->
  py_int (text ud) = Ok m ->
  parse_rate (strip (text ut)) DEFAULT_TAN = Ok tan ->
  parse_rate (strip (text ug)) DEFAULT_TAEG = Ok taeg ->
  monthly_payment (py_round2 a) m tan = Ok p ->
  let d := document_data (text u0) (strip (text un)) (py_round2 a) m tan taeg p in
  let call := loan_call (text u0) d in
  let filename := loan_filename (text u0) (strip (text un)) in
  let failed := build_raises E call || send_raises E call filename in
  exists w evs,
    run E (Some CHOOSING_DOC) {| user_data := ∅; log := l |} [u0; un; ua; ud; ut; ug]
      = (if failed then None else Some CHOOSING_DOC, w) /\
    user_data w = (if failed then d else ∅) /\
    log w = l ++ evs /\
    builds evs = [call] /\
    (build_raises E call = false -> In (ReplyDocument call filename) evs).
Proof.
  intros H0 Hg Hn Ha Hd Ht Hgf Pa Pm Pt Pg Pp d call filename failed.
  cbn [run].
  rewrite (handle_update_state E CHOOSING_DOC) by exact H0.
  cbn [state_handler]. rewrite choose_doc_eval. cbn [user_data log].
  rewrite (handle_update_state E ASK_NAME) by exact Hn.
  cbn [state_handler].
  rewrite (ask_name_other E un _ (VStr (text u0))).
  2:{ cbn [user_data]. apply lookup_insert_eq. }
  2:{ cbn [is_str]. apply String.eqb_neq. exact Hg. }
  cbn [user_data log].
  rewrite (handle_update_state E ASK_AMOUNT) by exact Ha.
  cbn [state_handler]. rewrite ask_amount_eval, Pa. cbn [user_data log].
  rewrite (handle_update_state E ASK_DURATION) by exact Hd.
  cbn [state_handler]. rewrite ask_duration_eval, Pm. cbn [user_data log].
  rewrite (handle_update_state E ASK_TAN) by exact Ht.
  cbn [state_handler]. rewrite ask_tan_eval, Pt. cbn [user_data log].
  rewrite (handle_update_state E ASK_TAEG) by exact Hgf.
  cbn [state_handler].
  rewrite (ask_taeg_eval E ug _ (text u0) (strip (text un)) (py_round2 a) m tan taeg p);
    try (cbn [user_data]; reflexivity); try assumption.
  cbn [user_data log].
  rewrite insert_empty.
  change (<["payment" := VFloat p]> (<["taeg" := VFloat taeg]> _)) with d.
  fold call. fold filename. unfold failed.
  destruct (build_raises E call); [| destruct (send_raises E call filename)];
    cbn [orb]; eexists _, _;
    (split; [reflexivity |]); (split; [reflexivity |]);
    cbn [log]; rewrite <- !app_assoc;
    (split; [reflexivity |]); (split; [reflexivity |]);
    try discriminate; intros _; cbn; auto 10.
Qed.

Lemma loan_flow_witness :
  let d := document_data "/carta" "Mario Rossi" (Fin 1000) 12
             (Fin (393 # 50)) (Fin (83 # 10)) (Fin (2173 # 25)) in
  exists w evs,
    run all_fine (Some CHOOSING_DOC) {| user_data := ∅; log := [] |}
      [message "/carta"; message " Mario Rossi "; message "1000 €"; message "12";
       message "7,86"; message "8,30"]
      = (Some CHOOSING_DOC, w) /\
    user_data w = ∅ /\
    log w = [] ++ evs /\
    builds evs = [Carta d] /\
    (build_raises all_fine (Carta d) = false ->
     In (ReplyDocument (Carta d) "Carta_Mario Rossi.pdf") evs).
Proof.
  apply (loan_flow all_fine [] (message "/carta") (message " Mario Rossi ")
           (message "1000 €") (message "12") (message "7,86") (message "8,30")
           (Fin 1000) 12 (Fin (393 # 50)) (Fin (83 # 10)) (Fin (2173 # 25)));
    try reflexivity; try discriminate; vm_compute; reflexivity.
Defined.

(** What a raising handler of a state leaves, on well-formed user data. *)
Lemma handler_raises (E : env) (s : state) (u : update) (w w' : world) (e : exn) :
  well_formed (Some s) (user_data w) ->
  state_handler E s u w = (w', Raise e) ->
  log w' = log w /\
  ((e = ValueError /\ w' = w /\ (s = ASK_TAN \/ s = ASK_TAEG)) \/
   (e = ZeroDivisionError /\ s = ASK_TAEG /\
    exists taeg, user_data w' = <["taeg" := VFloat taeg]> (user_data w))).
Proof.
  intros Hwf. destruct s; cbn [state_handler well_formed] in *.
  - rewrite choose_doc_eval. discriminate.
  - destruct Hwf as (t & Ht & Hd).
    assert (Hdt : user_data w !! "doc_type" = Some (VStr t)) by (rewrite Hd; reflexivity).
    destruct (is_str "/garanzia" (VStr t)) eqn:Hg.
    + apply is_str_true in Hg. injection Hg as ->.
      rewrite (ask_name_garanzia E u w Hdt).
      destruct (build_raises E _); [| destruct (send_raises E _ _)]; discriminate.
    + rewrite (ask_name_other E u w _ Hdt Hg). discriminate.
  - rewrite ask_amount_eval. destruct (py_float _); discriminate.
  - rewrite ask_duration_eval. destruct (py_int _); discriminate.
  - rewrite ask_tan_eval. destruct (parse_rate _ _) as [tan | e0] eqn:Hr; [discriminate |].
    intros [= <- <-]. apply parse_rate_raises in Hr. subst e0. auto 6.
  - destruct Hwf as (t & n & a & m & tan & Ht & Hg & Hd).
    intros Hrun.
    apply (ask_taeg_raises_collected E u w w' e t (py_round2 a) m tan) in Hrun;
      try (destruct Hd as [-> | [? ->]]; reflexivity).
    destruct Hrun as [(-> & -> & _) | (taeg & _ & -> & -> & _)]; cbn [user_data log].
    + auto 6.
    + split; [reflexivity |]. right. eauto.
Qed.

(** X2.  The user data of any session, whatever the updates: in each state
    of the conversation they hold exactly the keys collected so far, with
    a string for the name, floats for the amount and the rates and an int
    for the duration. *)
Theorem reachable_user_data (E : env) (d : gmap string pyval) (us : list update) :
  let r := run E None {| user_data := d; log := [] |} us in
  well_formed (fst r) (user_data (snd r)).
Proof. apply session_well_formed. Qed.

(** X3.  Every builder call of any session is given complete data: the
    guarantee letter a name; the contract and the card letter the user
    data of one finished collection, with the rounded amount and with the
    payment [monthly_payment] returns for the amount, the duration and the
    TAN in the same data. *)
Theorem reachable_builds_complete (E : env) (d : gmap string pyval) (us : list update) :
  Forall complete (builds (log (snd (run E None {| user_data := d; log := [] |} us)))).
Proof. apply session_well_formed. Qed.

(** X4.  No handler stores a place: the contract of any session is dated
    from the default place. *)
Theorem contract_place_is_default (E : env) (d0 : gmap string pyval) (us : list update) :
  Forall (fun call => match call with
                      | Contratto d => luogo d = VStr "Lisboa"
                      | _ => True
                      end)
         (builds (log (snd (run E None {| user_data := d0; log := [] |} us)))).
Proof.
  eapply Forall_impl; [apply session_well_formed |].
  intros [d | n | d] Hc; [| exact I | exact I].
  cbn [complete] in Hc. destruct Hc as (n & a & m & tan & taeg & p & -> & _).
  reflexivity.
Qed.



(** X7.  A duration of zero is a dead end.  Once the user data hold the
    duration 0, every text message in [ASK_TAEG] makes [ask_taeg] raise:
    the conversation stays in [ASK_TAEG], nothing is replied or built, and
    the duration is still 0, however many messages follow. *)
Theorem zero_duration_dead_end (E : env) (us : list update) (w : world) :
  user_data w !! "duration" = Some (VInt 0) ->
  Forall (fun u => text_filter u = true) us ->
  let r := run E (Some ASK_TAEG) w us in
  fst r = Some ASK_TAEG /\ log (snd r) = log w /\
  user_data (snd r) !! "duration" = Some (VInt 0).
Proof.
  intros Hd Hus. revert w Hd.
  induction Hus as [| u us Hu _ IH]; intros w Hd; cbn [run].
  - auto.
  - rewrite (handle_update_state E ASK_TAEG w u Hu). cbn [state_handler].
    destruct (ask_taeg E u w) as [w' [r | e]] eqn:Hrun.
    + exfalso. apply ask_taeg_returns in Hrun.
      destruct Hrun as (taeg & va & vd & vt & amount & duration & tan & p & dt
                        & _ & _ & _ & Hm & Hfm & _ & _ & Hp & _).
      rewrite Hd in Hm. injection Hm as <-. injection Hfm as <-.
      rewrite zero_months_raises in Hp. discriminate.
    + apply ask_taeg_raises in Hrun.
      destruct Hrun as [Hl H].
      assert (Hd' : user_data w' !! "duration" = Some (VInt 0)).
      { destruct H as [(-> & _) | [(taeg & _ & -> & _) | (taeg & p & -> & _)]];
          rewrite ?lookup_insert_ne by discriminate; exact Hd. }
      destruct (IH w' Hd') as (H1 & H2 & H3).
      split; [exact H1 |]. split; [congruence | exact H3].
Qed.

Lemma zero_duration_dead_end_witness :
  let w := {| user_data := <["duration" := VInt 0]> (user_data session); log := [] |} in
  let r := run all_fine (Some ASK_TAEG) w [message "8,30"; message "abc"; message "7"] in
  fst r = Some ASK_TAEG /\ log (snd r) = log w /\
  user_data (snd r) !! "duration" = Some (VInt 0).
Proof.
  apply (zero_duration_dead_end all_fine
           [message "8,30"; message "abc"; message "7"]
           {| user_data := <["duration" := VInt 0]> (user_data session); log := [] |});
    [reflexivity | repeat constructor].
Defined.

End Flows.

(** ** Number formatting *)

Section Formatting.
Local Open Scope Q_scope.

Example format_fixed_examples :
  format_fixed 2 (Fin (1 # 8)) = "0.12"%string /\
  format_fixed 2 (Fin (3 # 8)) = "0.38"%string /\
  format_fixed 2 (Fin (-(1 # 1000))) = "-0.00"%string /\
  format_fixed 0 (Fin (5 # 2)) = "2"%string /\
  format_fixed 3 (Fin (1 # 16)) = "0.062"%string /\
  format_fixed 2 (Inf true) = "-inf"%string.
Proof. vm_compute. repeat split. Qed.

Example fmt_num_examples :
  fmt_num (VFloat (Fin 1000)) 2 = "1000"%string /\
  fmt_num (VFloat (Fin (393 # 50))) 2 = "7,86"%string /\
  fmt_num (VFloat (Fin (83 # 10))) 2 = "8,3"%string /\
  fmt_num (VFloat (Fin (1 # 100))) 2 = "0,01"%string /\
  fmt_num (VInt 120) 0 = "120"%string /\
  fmt_num (VFloat (Fin 120)) 0 = "12"%string /\
  fmt_num (VFloat NaN) 2 = "nan"%string.
Proof. vm_compute. repeat split. Qed.

Lemma chars_str (l : list ascii) : chars (str l) = l.
Proof. apply list_ascii_of_string_of_list_ascii. Qed.

Lemma str_app (a b : list ascii) : str (a ++ b) = (str a ++ str b)%string.
Proof. induction a as [| c a IH]; simpl; [reflexivity |]. unfold str in *. simpl. now rewrite IH. Qed.

(** Replacing one character by another is a [map]. *)
Lemma replace_from_char (o n : ascii) (s : list ascii) :
  replace_from [o] [n] 0 s = map (fun c => if Ascii.eqb o c then n else c) s.
Proof.
  induction s as [| c s IH]; [reflexivity |].
  cbn [replace_from starts_with length Nat.pred map app].
  rewrite Bool.andb_true_r. destruct (Ascii.eqb o c); rewrite IH; reflexivity.
Qed.

Lemma isdigit_facts (c : ascii) :
  isdigit c = true ->
  Ascii.eqb "." c = false /\ Ascii.eqb "," c = false /\ is_number_space c = false.
Proof.
  destruct c as [[] [] [] [] [] [] [] []]; try discriminate; intros _;
    repeat split; reflexivity.
Qed.

Lemma string_of_uint_isdigit (d : Decimal.uint) :
  Forall (fun c => isdigit c = true) (chars (NilEmpty.string_of_uint d)).
Proof.
  induction d; unfold chars in *; cbn [NilEmpty.string_of_uint list_ascii_of_string];
    constructor; try reflexivity; assumption.
Qed.

Lemma map_digits (o n : ascii) (l : list ascii) :
  Forall (fun c => Ascii.eqb o c = false) l ->
  map (fun c => if Ascii.eqb o c then n else c) l = l.
Proof.
  induction 1 as [| c l Hc _ IH]; [reflexivity |]. cbn [map]. now rewrite Hc, IH.
Qed.

(** The character a digit below ten is printed as. *)
Lemma digit_of_chars (a : N) :
  (a < 10)%N ->
  exists c,
    (forall rest, chars (NilEmpty.string_of_uint (digit_of a rest))
                  = c :: chars (NilEmpty.string_of_uint rest)) /\
    isdigit c = true /\ Ascii.eqb "0" c = (a =? 0)%N.
Proof.
  intros Ha.
  assert (H : (a = 0 \/ a = 1 \/ a = 2 \/ a = 3 \/ a = 4 \/ a = 5 \/ a = 6
               \/ a = 7 \/ a = 8 \/ a = 9)%N) by lia.
  destruct H as [-> | [-> | [-> | [-> | [-> | [-> | [-> | [-> | [-> | ->]]]]]]]]];
    eexists; (split; [reflexivity |]); split; reflexivity.
Qed.

(** What the two [rstrip]s leave of two decimals after a comma. *)
Lemma rstrip_decimals (P : list ascii) (p c1 c2 : ascii) :
  Ascii.eqb "," p = false -> Ascii.eqb "," c1 = false -> Ascii.eqb "," c2 = false ->
  rstrip "," (rstrip "0" ((P ++ [p]) ++ [","%char; c1; c2])%list)
  = if Ascii.eqb "0" c2
    then if Ascii.eqb "0" c1 then (P ++ [p])%list
         else ((P ++ [p]) ++ [","%char; c1])%list
    else ((P ++ [p]) ++ [","%char; c1; c2])%list.
Proof.
  intros Hp H1 H2. unfold rstrip. rewrite rev_involutive.
  rewrite rev_app_distr. cbn [rev app]. rewrite rev_app_distr. cbn [rev app].
  cbn [lstrip].
  destruct (Ascii.eqb "0" c2) eqn:E2.
  - destruct (Ascii.eqb "0" c1) eqn:E1.
    + change (Ascii.eqb "0" ",") with false. cbv iota.
      cbn [lstrip]. change (Ascii.eqb "," ",") with true. cbv iota.
      rewrite Hp. cbn [rev]. rewrite rev_involutive. reflexivity.
    + cbn [lstrip]. rewrite H1. cbn [rev app].
      rewrite rev_involutive, <- !app_assoc. reflexivity.
  - cbn [lstrip]. rewrite H2. cbn [rev app].
    rewrite rev_involutive, <- !app_assoc. reflexivity.
Qed.

(** A printed number ends with a digit. *)
Lemma string_of_uint_last (d : Decimal.uint) :
  d <> Decimal.Nil ->
  exists P p, chars (NilEmpty.string_of_uint d) = (P ++ [p])%list /\ isdigit p = true.
Proof.
  intros Hd. pose proof (string_of_uint_isdigit d) as Hall.
  destruct (chars (NilEmpty.string_of_uint d)) as [| c l] eqn:E.
  - destruct d; try contradiction; discriminate E.
  - destruct (exists_last (l := c :: l)) as (P & p & EP); [discriminate |].
    exists P, p. split; [exact EP |].
    rewrite EP in Hall. apply Forall_app in Hall. destruct Hall as [_ Hp].
    now inversion Hp.
Qed.


(** The characters of a float printed with two decimals. *)
Lemma format_fixed_2_chars (q : Q) :
  let n := Z.to_N (round_half_even (Qabs q * 100)) in
  exists P p c1 c2,
    chars (format_fixed 2 (Fin q)) = ((P ++ [p]) ++ ["."%char; c1; c2])%list /\
    (P ++ [p])%list
    = (chars (if Qnegb q then "-" else "")
       ++ chars (NilEmpty.string_of_uint (N.to_uint (n / 100))))%list /\
    Forall (fun c => Ascii.eqb "." c = false) (P ++ [p]) /\
    isdigit p = true /\ isdigit c1 = true /\ isdigit c2 = true /\
    Ascii.eqb "0" c1 = (n mod 100 / 10 =? 0)%N /\
    Ascii.eqb "0" c2 = (n mod 100 mod 10 =? 0)%N /\
    chars (NilEmpty.string_of_uint (digit_of (n mod 100 / 10) Decimal.Nil)) = [c1] /\
    chars (NilEmpty.string_of_uint
             (digit_of (n mod 100 / 10) (digit_of (n mod 100 mod 10) Decimal.Nil)))
    = [c1; c2].
Proof.
  intros n. unfold format_fixed.
  change (Qabs q * 10 ^ Z.of_nat 2) with (Qabs q * 100). fold n.
  change (10 ^ N.of_nat 2)%N with 100%N.
  set (k := (n mod 100)%N).
  assert (Hk : (k < 100)%N) by (apply N.mod_lt; discriminate).
  cbn [digits_of].
  assert (E10 : (k / 10 mod 10 = k / 10)%N).
  { apply N.mod_small. apply N.Div0.div_lt_upper_bound. exact Hk. }
  rewrite E10.
  destruct (digit_of_chars (k mod 10)) as (c2 & E2 & D2 & Z2).
  { apply N.mod_lt. discriminate. }
  destruct (digit_of_chars (k / 10)) as (c1 & E1 & D1 & Z1).
  { apply N.Div0.div_lt_upper_bound. exact Hk. }
  pose proof (to_uint_nonnil (n / 100)) as HI.
  destruct (string_of_uint_last _ HI) as (P0 & p & EP & Dp).
  exists (chars (if Qnegb q then "-" else "") ++ P0)%list, p, c1, c2.
  assert (EI : ((chars (if Qnegb q then "-" else "") ++ P0) ++ [p])%list
               = (chars (if Qnegb q then "-" else "")
                  ++ chars (NilEmpty.string_of_uint (N.to_uint (n / 100))))%list).
  { rewrite EP, app_assoc. reflexivity. }
  split.
  { rewrite EI, !chars_app, E1, E2. change (chars ".") with ["."%char].
    rewrite <- !app_assoc. reflexivity. }
  split; [exact EI |].
  split.
  { rewrite EI. apply Forall_app. split.
    - destruct (Qnegb q); repeat constructor.
    - eapply Forall_impl; [apply string_of_uint_isdigit |].
      intros c Hc. apply (isdigit_facts c Hc). }
  repeat (split; [assumption |]).
  split; [rewrite E1; reflexivity | rewrite E1, E2; reflexivity].
Qed.

(** The explicit form of [fmt_num] with two decimals. *)
Lemma fmt_num_two_decimals_eq (q : Q) :
  fmt_num (VFloat (Fin q)) 2
  = ((if Qnegb q then "-" else "")
     ++ NilEmpty.string_of_uint
          (N.to_uint (Z.to_N (round_half_even (Qabs q * 100)) / 100))
     ++ (if (Z.to_N (round_half_even (Qabs q * 100)) mod 100 =? 0)%N then ""
         else "," ++ NilEmpty.string_of_uint
                       (decimals (Z.to_N (round_half_even (Qabs q * 100)) mod 100))))%string.
Proof.
  set (n := Z.to_N (round_half_even (Qabs q * 100))).
  destruct (format_fixed_2_chars q) as (P & p & c1 & c2 & EC & EP & HP & Dp & D1 & D2
                                        & Z1 & Z2 & S1 & S2).
  fold n in EP, Z1, Z2, S1, S2.
  unfold fmt_num, replace. rewrite chars_str.
  change (chars ".") with ["."%char]. change (chars ",") with [","%char].
  rewrite replace_from_char, EC, map_app, (map_digits _ _ _ HP).
  cbn [map]. change (Ascii.eqb "." ".") with true. cbv iota.
  destruct (isdigit_facts _ D1) as (N1 & C1 & _).
  destruct (isdigit_facts _ D2) as (N2 & C2 & _).
  destruct (isdigit_facts _ Dp) as (_ & Cp & _).
  rewrite N1, N2.
  rewrite (rstrip_decimals P p c1 c2 Cp C1 C2), Z1, Z2.
  set (k := (n mod 100)%N) in *.
  assert (Hk : (k < 100)%N) by (apply N.mod_lt; discriminate).
  assert (Hdm : k = (10 * (k / 10) + k mod 10)%N) by (apply N.div_mod'; discriminate).
  unfold decimals.
  rewrite <- (str_chars (_ ++ _ ++ _)%string), !chars_app, app_assoc, <- EP.
  f_equal.
  destruct (k mod 10 =? 0)%N eqn:E2.
  - apply N.eqb_eq in E2. destruct (k / 10 =? 0)%N eqn:E1.
    + apply N.eqb_eq in E1.
      replace (k =? 0)%N with true by (symmetry; apply N.eqb_eq; lia).
      change (chars "") with (@nil ascii). now rewrite app_nil_r.
    + apply N.eqb_neq in E1.
      replace (k =? 0)%N with false
        by (symmetry; apply N.eqb_neq; intros K; apply E1; rewrite K; reflexivity).
      rewrite chars_app, S1. reflexivity.
  - apply N.eqb_neq in E2.
    replace (k =? 0)%N with false
      by (symmetry; apply N.eqb_neq; intros K; apply E2; rewrite K; reflexivity).
    rewrite chars_app, S2. reflexivity.
Qed.


(** X19.  [fmt_num] of a finite float, with the two decimals the contract
    asks for: the sign, the whole part of the magnitude rounded to two
    decimals (ties to even) in full, and then, unless both decimals are
    zero, a comma and the decimals without a trailing zero. *)
Theorem fmt_num_two_decimals (q : Q) :
  let n := Z.to_N (round_half_even (Qabs q * 100)) in
  fmt_num (VFloat (Fin q)) 2
  = ((if Qnegb q then "-" else "")
     ++ NilEmpty.string_of_uint (N.to_uint (n / 100))
     ++ (if (n mod 100 =? 0)%N then ""
         else "," ++ NilEmpty.string_of_uint (decimals (n mod 100))))%string.
Proof. intros n. apply fmt_num_two_decimals_eq. Qed.

Lemma strip_chars_ends (space : ascii -> bool) (c p : ascii) (Y X : list ascii) :
  (c :: Y = X ++ [p])%list -> space c = false -> space p = false ->
  strip_chars space (c :: Y) = c :: Y.
Proof.
  intros E Hc Hp. unfold strip_chars. rewrite lstrip_id by exact Hc.
  rewrite E, rev_unit, lstrip_id by exact Hp.
  change (rev (p :: rev X)) with (rev (rev X) ++ [p])%list.
  now rewrite rev_involutive.
Qed.

(** A printed number, with or without decimals, reads as its digits. *)
Lemma parse_printed (neg : bool) (whole frac : Decimal.uint) :
  whole <> Decimal.Nil ->
  parse_literal ((if neg then "-" else "")
                 ++ NilEmpty.string_of_uint whole
                 ++ match frac with
                    | Decimal.Nil => ""
                    | _ => "." ++ NilEmpty.string_of_uint frac
                    end)%string
  = Some (LFin neg (magnitude whole frac 0)).
Proof.
  intros Hwhole.
  set (tail := match frac with
               | Decimal.Nil => []
               | _ => "."%char :: chars (NilEmpty.string_of_uint frac)
               end).
  assert (Etail : chars (match frac with
                         | Decimal.Nil => ""
                         | _ => "." ++ NilEmpty.string_of_uint frac
                         end)%string = tail).
  { unfold tail. destruct frac; try reflexivity; rewrite chars_app; reflexivity. }
  set (body := (chars (NilEmpty.string_of_uint whole) ++ tail)%list).
  (* the number *)
  assert (Hnum : number body = Some (whole, frac, [])).
  { unfold number, body. rewrite digitpart_render; [| exact Hwhole |].
    2:{ unfold tail. destruct frac; split; try reflexivity; try discriminate; exact I. }
    unfold tail. destruct frac; try reflexivity.
    all: match goal with |- context [digitpart (chars (NilEmpty.string_of_uint ?d))] =>
           rewrite <- (app_nil_r (chars (NilEmpty.string_of_uint d)));
           rewrite (digitpart_render d []); [reflexivity | discriminate | split; [reflexivity | exact I]]
         end. }
  (* the ends *)
  destruct (string_of_uint_cons whole Hwhole) as (c0 & D & X & HX & Hc0).
  destruct (digit_char_facts c0 D Hc0) as (Hsp & Hsign & Hword).
  assert (Hlast : exists Z p, body = (Z ++ [p])%list /\ is_number_space p = false).
  { unfold body, tail. destruct frac.
    1:{ destruct (string_of_uint_last whole Hwhole) as (P & p & EP & Dp).
        exists P, p. rewrite app_nil_r. split; [exact EP | apply (isdigit_facts p Dp)]. }
    all: match goal with |- context [("."%char :: chars (NilEmpty.string_of_uint ?d))%list] =>
           destruct (string_of_uint_last d) as (P & p & EP & Dp); [discriminate |];
           exists (chars (NilEmpty.string_of_uint whole) ++ "."%char :: P)%list, p;
           rewrite EP; split; [rewrite <- app_assoc; reflexivity | apply (isdigit_facts p Dp)]
         end. }
  destruct Hlast as (Z & p & EZ & Hp).
  assert (Ebody : body = c0 :: (X ++ tail)%list) by (unfold body; rewrite HX; reflexivity).
  unfold parse_literal. rewrite !chars_app, Etail. fold body.
  destruct neg.
  - change (chars "-") with ["-"%char]. cbn [app].
    rewrite (strip_chars_ends _ "-"%char p body ("-"%char :: Z));
      [| rewrite EZ; reflexivity | reflexivity | exact Hp].
    cbn [sign]. rewrite Ebody.
    destruct (Hword (X ++ tail)%list) as (-> & -> & ->). cbn [orb].
    rewrite <- Ebody, Hnum. reflexivity.
  - change (chars "") with (@nil ascii). cbn [app].
    rewrite Ebody. rewrite (strip_chars_ends _ c0 p (X ++ tail)%list Z);
      [| rewrite <- Ebody; exact EZ | exact Hsp | exact Hp].
    rewrite Hsign.
    destruct (Hword (X ++ tail)%list) as (-> & -> & ->). cbn [orb].
    rewrite <- Ebody, Hnum. reflexivity.
Qed.


(** The value of the decimals printed for [k] hundredths. *)
Lemma decimals_value (k : N) :
  (k < 100)%N ->
  inject_Z (Z.of_N (N.of_uint (decimals k)))
    / 10 ^ Z.of_nat (Decimal.nb_digits (decimals k))
  == inject_Z (Z.of_N k) / 100.
Proof.
  intros Hk.
  assert (H : forallb
                (fun j => Qeq_bool
                            (inject_Z (Z.of_N (N.of_uint (decimals j)))
                               / 10 ^ Z.of_nat (Decimal.nb_digits (decimals j)))
                            (inject_Z (Z.of_N j) / 100))
                (map N.of_nat (seq 0 100)) = true) by (vm_compute; reflexivity).
  apply Qeq_bool_iff. exact (below_all _ 100 H k Hk).
Qed.

Lemma decimals_nil (k : N) : (k < 100)%N -> (decimals k = Decimal.Nil <-> k = 0%N).
Proof.
  intros Hk.
  assert (H : forallb
                (fun j => Bool.eqb (if Decimal.uint_eq_dec (decimals j) Decimal.Nil
                                    then true else false) (j =? 0)%N)
                (map N.of_nat (seq 0 100)) = true) by (vm_compute; reflexivity).
  pose proof (below_all _ 100 H k Hk) as B. cbv beta in B.
  apply Bool.eqb_prop in B.
  destruct (Decimal.uint_eq_dec (decimals k) Decimal.Nil) as [E | E].
  - symmetry in B. apply N.eqb_eq in B. tauto.
  - symmetry in B. apply N.eqb_neq in B. tauto.
Qed.

(** [round_half_even] is determined by what it is: the nearest integer,
    the even one of two. *)
Lemma round_half_even_unique (x : Q) (z : Z) :
  inject_Z z - (1 # 2) <= x <= inject_Z z + (1 # 2) ->
  (x == inject_Z z - (1 # 2) \/ x == inject_Z z + (1 # 2) -> Z.even z = true) ->
  round_half_even x = z.
Proof.
  intros [L U] T.
  destruct (round_half_even_nearest x) as [[L' U'] T'].
  set (r := round_half_even x) in *.
  destruct (Z.lt_trichotomy r z) as [Lt | [E | Gt]]; [| exact E |]; exfalso.
  - assert (G : inject_Z r + 1 <= inject_Z z).
    { rewrite <- inject_Z_succ, <- Zle_Qle. lia. }
    assert (Ex : x == inject_Z r + (1 # 2)) by lra.
    assert (Ez : x == inject_Z z - (1 # 2)) by lra.
    assert (Hz : inject_Z z == inject_Z r + 1) by lra.
    assert (Hz' : z = (r + 1)%Z).
    { rewrite <- inject_Z_succ in Hz. unfold Qeq in Hz. simpl in Hz. lia. }
    specialize (T (or_introl Ez)). specialize (T' (or_intror Ex)).
    rewrite Hz', Z.even_add, T' in T. discriminate.
  - assert (G : inject_Z z + 1 <= inject_Z r).
    { rewrite <- inject_Z_succ, <- Zle_Qle. lia. }
    assert (Ex : x == inject_Z r - (1 # 2)) by lra.
    assert (Ez : x == inject_Z z + (1 # 2)) by lra.
    assert (Hz : inject_Z r == inject_Z z + 1) by lra.
    assert (Hz' : r = (z + 1)%Z).
    { rewrite <- inject_Z_succ in Hz. unfold Qeq in Hz. simpl in Hz. lia. }
    specialize (T (or_intror Ez)). specialize (T' (or_introl Ex)).
    rewrite Hz', Z.even_add, T in T'. discriminate.
Qed.

Lemma round_half_even_opp (x : Q) : round_half_even (- x) = (- round_half_even x)%Z.
Proof.
  destruct (round_half_even_nearest x) as [[L U] T].
  apply round_half_even_unique.
  - rewrite inject_Z_opp. split; lra.
  - rewrite inject_Z_opp, Z.even_opp. intros [H | H]; apply T; [right | left]; lra.
Qed.

Lemma round_half_even_int (z : Z) : round_half_even (inject_Z z) = z.
Proof. apply round_half_even_unique; [split; lra | intros [H | H]; lra]. Qed.

(** Rounding the magnitude and putting the sign back is rounding. *)
Lemma round_half_even_abs (q : Q) :
  inject_Z (Z.of_N (Z.to_N (round_half_even (Qabs q * 100))))
  == (if Qnegb q then - inject_Z (round_half_even (q * 100))
      else inject_Z (round_half_even (q * 100))).
Proof.
  rewrite Z2N.id.
  2:{ apply round_half_even_nonneg. pose proof (Qabs_nonneg q). lra. }
  destruct (Qnegb q) eqn:Hs.
  - apply Qnegb_true in Hs.
    assert (E : Qabs q * 100 == - (q * 100)) by (rewrite Qabs_neg by lra; ring).
    rewrite (round_half_even_comp _ _ E), round_half_even_opp, inject_Z_opp. reflexivity.
  - apply Qnegb_false in Hs.
    assert (E : Qabs q * 100 == q * 100) by (rewrite Qabs_pos by lra; reflexivity).
    rewrite (round_half_even_comp _ _ E). reflexivity.
Qed.

(** [round(round(x, 2), 2)] is [round(x, 2)]. *)
Lemma round2_idempotent (x : Q) : round2 (round2 x) == round2 x.
Proof.
  rewrite (round2_cents (round2 x)).
  assert (E : round2 x * 100 == inject_Z (round_half_even (x * 100))).
  { rewrite round2_cents. field. }
  rewrite (round_half_even_comp _ _ E), round_half_even_int.
  symmetry. apply round2_cents.
Qed.


End Formatting.
